(** * Workspace binding and model catalog of openwork (src/main/ipc/models.ts)

    A shallow embedding of the IPC handlers registered by
    [registerModelHandlers] and of the helpers they call, followed by the
    properties of the specification that are about them.

    Conventions.
    - JavaScript strings are Rocq [string]s; the case mappings
      [toLowerCase]/[toUpperCase] act on the ASCII letters.
    - [Date.now()] readings are integers ([Z], milliseconds).
    - A computation that may throw has type [Try A]; an [async] handler that
      throws rejects its promise, which is the outcome [Throws].
    - Module-level mutable variables and the external stores are fields of
      explicit state records that the handlers take and return. *)

From Stdlib Require Import ZArith Ascii String List Lia.
From stdpp Require Import base option list gmap strings.

Local Open Scope Z_scope.

(* ===================================================================== *)
(** ** JavaScript string primitives used by the handlers *)
(* ===================================================================== *)

Module JsString.

(** [s.startsWith(p)] *)
Fixpoint startsWith (s p : string) : bool :=
  match p with
  | EmptyString => true
  | String c p' =>
      match s with
      | EmptyString => false
      | String d s' => if Ascii.eqb c d then startsWith s' p' else false
      end
  end.

Definition chars (s : string) : list ascii := list_ascii_of_string s.
Definition of_chars (l : list ascii) : string := string_of_list_ascii l.

Definition reverse (s : string) : string := of_chars (rev (chars s)).

(** [s.endsWith(p)] *)
Definition endsWith (s p : string) : bool :=
  startsWith (reverse s) (reverse p).

(** [s.slice(1)] *)
Definition slice1 (s : string) : string :=
  match s with
  | EmptyString => EmptyString
  | String _ s' => s'
  end.

(** [s.slice(0, s.length - n)], used for stripping a matched suffix. *)
Definition dropEnd (n : nat) (s : string) : string :=
  of_chars (rev (drop n (rev (chars s)))).

(** [s.split(sep)] for a separator that matches exactly one character
    (a one-character string or a character class). The result is never
    empty: [''.split(':')] is [['']]. *)
Fixpoint split (sep : ascii -> bool) (s : string) : list string :=
  match s with
  | EmptyString => [EmptyString]
  | String c s' =>
      if sep c then EmptyString :: split sep s'
      else match split sep s' with
           | [] => [String c EmptyString]
           | w :: ws => String c w :: ws
           end
  end.

(** [l.join(sep)] *)
Fixpoint join (sep : string) (l : list string) : string :=
  match l with
  | [] => EmptyString
  | [w] => w
  | w :: ws => w +:+ sep +:+ join sep ws
  end.

Definition is_char (c : ascii) : ascii -> bool := Ascii.eqb c.

Definition lowerChar (c : ascii) : ascii :=
  let n := nat_of_ascii c in
  if ((65 <=? n) && (n <=? 90))%nat then ascii_of_nat (n + 32) else c.

Definition upperChar (c : ascii) : ascii :=
  let n := nat_of_ascii c in
  if ((97 <=? n) && (n <=? 122))%nat then ascii_of_nat (n - 32) else c.

Fixpoint mapChars (f : ascii -> ascii) (s : string) : string :=
  match s with
  | EmptyString => EmptyString
  | String c s' => String (f c) (mapChars f s')
  end.

Definition toLowerCase : string -> string := mapChars lowerChar.
Definition toUpperCase : string -> string := mapChars upperChar.

(** [word.charAt(0).toUpperCase() + word.slice(1)] *)
Definition capitalize (word : string) : string :=
  match word with
  | EmptyString => EmptyString
  | String c w => String (upperChar c) w
  end.

(** A string is truthy when it is not empty. *)
Definition truthy (s : string) : bool :=
  match s with
  | EmptyString => false
  | String _ _ => true
  end.

(** [a || b] on values that are a string or undefined. *)
Definition or_else (a b : option string) : option string :=
  match a with
  | Some s => if truthy s then a else b
  | None => b
  end.

End JsString.

(* ===================================================================== *)
(** ** Node's [path] module, POSIX flavour *)
(* ===================================================================== *)

Module Path.
Import JsString.

Definition isSep : ascii -> bool := is_char "/"%char.

(** One step of [normalizeString]: [res] is the stack of segments kept
    so far, the last one first. *)
Definition pushSegment (allowAboveRoot : bool) (res : list string)
    (seg : string) : list string :=
  if String.eqb seg "" || String.eqb seg "." then res
  else if String.eqb seg ".." then
    match res with
    | top :: rest =>
        if String.eqb top ".." then
          (if allowAboveRoot then seg :: res else res)
        else rest
    | [] => if allowAboveRoot then [seg] else []
    end
  else seg :: res.

Definition normalizeSegments (allowAboveRoot : bool) (path : string)
    : list string :=
  rev (fold_left (pushSegment allowAboveRoot) (split isSep path) []).

(** [normalizeString(path, allowAboveRoot, '/', isPosixPathSeparator)] *)
Definition normalizeString (path : string) (allowAboveRoot : bool) : string :=
  join "/" (normalizeSegments allowAboveRoot path).

Definition isAbsolute (path : string) : bool := startsWith path "/".

(** [path.normalize(path)] *)
Definition normalize (path : string) : string :=
  if truthy path then
    let trailingSeparator := endsWith path "/" in
    let p := normalizeString path (negb (isAbsolute path)) in
    if truthy p then
      let p' := if trailingSeparator then p +:+ "/" else p in
      if isAbsolute path then "/" +:+ p' else p'
    else if isAbsolute path then "/"
    else if trailingSeparator then "./" else "."
  else ".".

(** [path.join(...args)] *)
Definition join (args : list string) : string :=
  let joined := JsString.join "/" (filter (fun a => truthy a = true) args) in
  if truthy joined then normalize joined else ".".

(** The loop of [path.resolve]: arguments are taken from the right, then
    the working directory, until an absolute one has been prepended. *)
Fixpoint resolveLoop (rargs : list string) (resolvedPath : string)
    : string * bool :=
  match rargs with
  | [] => (resolvedPath, false)
  | p :: rest =>
      if truthy p then
        let resolvedPath' := p +:+ "/" +:+ resolvedPath in
        if isAbsolute p then (resolvedPath', true)
        else resolveLoop rest resolvedPath'
      else resolveLoop rest resolvedPath
  end.

(** [path.resolve(...args)] in a process whose working directory is
    [cwd]. *)
Definition resolve (cwd : string) (args : list string) : string :=
  let '(resolvedPath, resolvedAbsolute) := resolveLoop (rev (cwd :: args)) "" in
  let p := normalizeString resolvedPath (negb resolvedAbsolute) in
  if resolvedAbsolute then "/" +:+ p
  else if truthy p then p else ".".

End Path.

(* ===================================================================== *)
(** ** Exceptions *)
(* ===================================================================== *)

(** What a JavaScript [throw] carries: an [Error] with its message, or any
    other value. *)
Inductive Thrown : Type :=
  | ErrorObject (message : string)
  | OtherValue.

Inductive Try (A : Type) : Type :=
  | Returns (a : A)
  | Throws (e : Thrown).
Arguments Returns {A} a.
Arguments Throws {A} e.

#[global] Instance Try_ret : MRet Try := fun A a => Returns a.
#[global] Instance Try_bind : MBind Try := fun A B f m =>
  match m with
  | Returns a => f a
  | Throws e => Throws e
  end.

#[global] Instance Try_fmap : FMap Try := fun A B f m =>
  match m with
  | Returns a => Returns (f a)
  | Throws e => Throws e
  end.

(** [e instanceof Error ? e.message : 'Unknown error'] *)
Definition errorMessage (e : Thrown) : string :=
  match e with
  | ErrorObject message => message
  | OtherValue => "Unknown error"
  end.

(* ===================================================================== *)
(** ** The model catalog *)
(* ===================================================================== *)

Module Catalog.
Import JsString.

Inductive OllamaMode : Type := Local | Cloud.

Record ModelConfig : Type := mkModel {
  id : string;
  name : string;
  provider : string;
  model : string;
  description : string;
  available : bool;
  ollamaMode : option OllamaMode
}.

(** The module-level caches. *)
Record Caches : Type := mkCaches {
  ollamaModelsCache : list ModelConfig;
  ollamaModelsCacheTime : Z;
  ollamaLocalModelsCache : list ModelConfig;
  ollamaLocalModelsCacheTime : Z
}.

Definition initialCaches : Caches := mkCaches [] 0 [] 0.

Definition OLLAMA_CACHE_TTL : Z := 5 * 60 * 1000.

Definition AVAILABLE_MODELS : list ModelConfig :=
  [
  mkModel "claude-opus-4-5-20251101" "Claude Opus 4.5"
    "anthropic" "claude-opus-4-5-20251101"
    "Premium model with maximum intelligence"
    true None;
  mkModel "claude-sonnet-4-5-20250929" "Claude Sonnet 4.5"
    "anthropic" "claude-sonnet-4-5-20250929"
    "Best balance of intelligence, speed, and cost for agents"
    true None;
  mkModel "claude-haiku-4-5-20251001" "Claude Haiku 4.5"
    "anthropic" "claude-haiku-4-5-20251001"
    "Fastest model with near-frontier intelligence"
    true None;
  mkModel "claude-opus-4-1-20250805" "Claude Opus 4.1"
    "anthropic" "claude-opus-4-1-20250805"
    "Previous generation premium model with extended thinking"
    true None;
  mkModel "claude-sonnet-4-20250514" "Claude Sonnet 4"
    "anthropic" "claude-sonnet-4-20250514"
    "Fast and capable previous generation model"
    true None;
  mkModel "gpt-5.2" "GPT-5.2"
    "openai" "gpt-5.2"
    "Latest flagship with enhanced coding and agentic capabilities"
    true None;
  mkModel "gpt-5.1" "GPT-5.1"
    "openai" "gpt-5.1"
    "Advanced reasoning and robust performance"
    true None;
  mkModel "o3" "o3"
    "openai" "o3"
    "Advanced reasoning for complex problem-solving"
    true None;
  mkModel "o3-mini" "o3 Mini"
    "openai" "o3-mini"
    "Cost-effective reasoning with faster response times"
    true None;
  mkModel "o4-mini" "o4 Mini"
    "openai" "o4-mini"
    "Fast, efficient reasoning model succeeding o3"
    true None;
  mkModel "o1" "o1"
    "openai" "o1"
    "Premium reasoning for research, coding, math and science"
    true None;
  mkModel "gpt-4.1" "GPT-4.1"
    "openai" "gpt-4.1"
    "Strong instruction-following with 1M context window"
    true None;
  mkModel "gpt-4.1-mini" "GPT-4.1 Mini"
    "openai" "gpt-4.1-mini"
    "Faster, smaller version balancing performance and efficiency"
    true None;
  mkModel "gpt-4.1-nano" "GPT-4.1 Nano"
    "openai" "gpt-4.1-nano"
    "Most cost-efficient for lighter tasks"
    true None;
  mkModel "gpt-4o" "GPT-4o"
    "openai" "gpt-4o"
    "Versatile model for text generation and comprehension"
    true None;
  mkModel "gpt-4o-mini" "GPT-4o Mini"
    "openai" "gpt-4o-mini"
    "Cost-efficient variant with faster response times"
    true None;
  mkModel "gemini-3-pro-preview" "Gemini 3 Pro Preview"
    "google" "gemini-3-pro-preview"
    "State-of-the-art reasoning and multimodal understanding"
    true None;
  mkModel "gemini-2.5-pro" "Gemini 2.5 Pro"
    "google" "gemini-2.5-pro"
    "High-capability model for complex reasoning and coding"
    true None;
  mkModel "gemini-2.5-flash" "Gemini 2.5 Flash"
    "google" "gemini-2.5-flash"
    "Lightning-fast with balance of intelligence and latency"
    true None;
  mkModel "gemini-2.5-flash-lite" "Gemini 2.5 Flash Lite"
    "google" "gemini-2.5-flash-lite"
    "Fast, low-cost, high-performance model"
    true None;
  mkModel "gpt-oss:120b-cloud" "GPT-OSS 120B Cloud"
    "ollama-cloud" "gpt-oss:120b-cloud"
    "Open-source GPT model with 120B parameters on cloud"
    true (Some Cloud);
  mkModel "gpt-oss:20b-cloud" "GPT-OSS 20B Cloud"
    "ollama-cloud" "gpt-oss:20b-cloud"
    "Open-source GPT model with 20B parameters on cloud"
    true (Some Cloud);
  mkModel "qwen3-coder:480b-cloud" "Qwen3 Coder 480B Cloud"
    "ollama-cloud" "qwen3-coder:480b-cloud"
    "Specialized coding model with 480B parameters on cloud"
    true (Some Cloud);
  mkModel "deepseek-v3.1:671b-cloud" "DeepSeek v3.1 671B Cloud"
    "ollama-cloud" "deepseek-v3.1:671b-cloud"
    "Advanced model with 671B parameters on cloud"
    true (Some Cloud);
  mkModel "qwen3-vl:235b-cloud" "Qwen3 VL 235B Cloud"
    "ollama-cloud" "qwen3-vl:235b-cloud"
    "Vision-language model with 235B parameters on cloud"
    true (Some Cloud)
  ].

(** *** Formatting of display names *)

Definition stripCloudSuffix (name : string) : string :=
  if endsWith name ":cloud" then dropEnd 6 name else name.

Definition isNameSeparator (c : ascii) : bool :=
  is_char "-"%char c || is_char "_"%char c || is_char ":"%char c.

Definition formatModelName (name : string) : string :=
  let withoutSuffix := stripCloudSuffix name in
  join " " (map capitalize (split isNameSeparator withoutSuffix)).

Definition isLocalNameSeparator (c : ascii) : bool :=
  is_char "-"%char c || is_char "_"%char c || is_char "."%char c.

Definition isColon : ascii -> bool := is_char ":"%char.

Definition formatLocalModelName (name : string) : string :=
  let parts := split isColon name in
  let modelName :=
    match parts with
    | p0 :: _ => if truthy p0 then p0 else name
    | [] => name
    end in
  let tag :=
    match parts with
    | _ :: p1 :: _ => p1
    | _ => ""
    end in
  let formattedName :=
    join " " (map capitalize (split isLocalNameSeparator modelName)) in
  if truthy tag then formattedName +:+ " (" +:+ toUpperCase tag +:+ ")"
  else formattedName.

(** *** Tool-calling capability *)

Definition baseNameOf (modelName : string) : string :=
  toLowerCase (hd "" (split isColon modelName)).

Definition supportsToolCalling (modelName : string) : bool :=
  let baseName := baseNameOf modelName in
  if startsWith baseName "llama3.1"
     || startsWith baseName "llama3.2"
     || startsWith baseName "llama3.3" then true
  else if startsWith baseName "qwen3"
     || startsWith baseName "qwen2.5"
     || startsWith baseName "qwen2"
     || startsWith baseName "qwq" then true
  else if String.eqb baseName "mistral"
     || startsWith baseName "mistral-small"
     || startsWith baseName "mistral-nemo"
     || startsWith baseName "ministral-3" then true
  else if startsWith baseName "deepseek-r1" then true
  else if String.eqb baseName "functiongemma" then true
  else if startsWith baseName "gpt-oss" then true
  else if startsWith baseName "devstral-small-2"
     || startsWith baseName "devstral-2" then true
  else if startsWith baseName "smollm2" then true
  else false.

(** *** The network and the other collaborators *)

(** An element of a discovery response. A field that is absent is
    [None]. *)
Record RawModel : Type := mkRaw {
  raw_id : option string;
  raw_name : option string;
  raw_model : option string;
  raw_description : option string
}.

(** The parsed body of a response, as far as the handlers look at it:
    an object with its [data] and [models] fields (an absent or falsy field
    is [None]), an array, any other non-null value, or [null]. *)
Inductive JsonBody : Type :=
  | JObject (data models : option (list RawModel))
  | JArray (elements : list RawModel)
  | JScalar
  | JNull.

Record Response : Type := mkResponse {
  ok : bool;
  json : Try JsonBody
}.

(** The collaborators of one invocation: the credential store, the
    configured local endpoint and what each URL answers. *)
Record Env : Type := mkEnv {
  getApiKey : string -> option string;
  hasApiKey : string -> bool;
  getOllamaLocalEndpoint : string;
  fetch : string -> Try Response
}.

(** A computation inside a [try] block that issues requests: its outcome
    and the URLs it requested, in order. *)
Definition Net (A : Type) : Type := (Try A * list string)%type.

#[global] Instance Net_ret : MRet Net := fun A a => (Returns a, []).
#[global] Instance Net_bind : MBind Net := fun A B f m =>
  match m with
  | (Returns a, log) => let '(r, log') := f a in (r, log ++ log')
  | (Throws e, log) => (Throws e, log)
  end.

Definition request (env : Env) (url : string) : Net Response :=
  (fetch env url, [url]).

Definition lift {A : Type} (t : Try A) : Net A := (t, []).

(** *** Cloud discovery *)

Definition cloudModelsOf (data : JsonBody) : Try (list RawModel) :=
  match data with
  | JObject (Some l) _ => Returns l
  | JObject None (Some l) => Returns l
  | JObject None None => Returns []
  | JArray l => Returns l
  | JScalar => Returns []
  | JNull =>
      Throws (ErrorObject "Cannot read properties of null (reading 'data')")
  end.

Definition toCloudModel (m : RawModel) : Try ModelConfig :=
  let modelId := or_else (or_else (raw_id m) (raw_name m)) (raw_model m) in
  let modelName := or_else (or_else (raw_name m) (raw_id m)) modelId in
  match modelId, modelName with
  | Some modelId, Some modelName =>
      Returns
        (mkModel modelId (formatModelName modelName) "ollama-cloud" modelId
           (default ("Ollama Cloud model: " +:+ modelName)
              (or_else (raw_description m) None))
           true (Some Cloud))
  | _, _ =>
      Throws
        (ErrorObject "Cannot read properties of undefined (reading 'replace')")
  end.

Definition cloudAttempt (env : Env) : Net (option (list ModelConfig)) :=
  r1 ← request env "https://ollama.com/v1/models";
  r ← (if ok r1 then mret r1 else request env "https://ollama.com/api/tags");
  if negb (ok r) then mret None
  else
    data ← lift (json r);
    models ← lift (cloudModelsOf data);
    ollamaModels ← lift (mapM toCloudModel models);
    mret (Some ollamaModels).

Definition cloudFresh (now : Z) (st : Caches) : bool :=
  (0 <? length (ollamaModelsCache st))%nat
  && (now - ollamaModelsCacheTime st <? OLLAMA_CACHE_TTL).

Definition hasKey (k : option string) : bool :=
  match k with
  | Some s => truthy s
  | None => false
  end.

(** A discovery call gives the list it resolves to, the caches afterwards
    and the URLs it requested. *)
Definition fetchOllamaCloudModels (env : Env) (now : Z) (st : Caches)
    : list ModelConfig * Caches * list string :=
  if negb (hasKey (getApiKey env "ollama-cloud")) then ([], st, [])
  else if cloudFresh now st then (ollamaModelsCache st, st, [])
  else
    match cloudAttempt env with
    | (Returns (Some ollamaModels), log) =>
        (ollamaModels,
         mkCaches ollamaModels now
           (ollamaLocalModelsCache st) (ollamaLocalModelsCacheTime st),
         log)
    | (Returns None, log) => ([], st, log)
    | (Throws _, log) => ([], st, log)
    end.

(** *** Local discovery *)

Definition localModelsOf (data : JsonBody) : Try (list RawModel) :=
  match data with
  | JObject _ (Some l) => Returns l
  | JObject _ None => Returns []
  | JArray _ => Returns []
  | JScalar => Returns []
  | JNull =>
      Throws (ErrorObject "Cannot read properties of null (reading 'models')")
  end.

Definition nameOf (m : RawModel) : Try string :=
  match raw_name m with
  | Some n => Returns n
  | None =>
      Throws
        (ErrorObject "Cannot read properties of undefined (reading 'endsWith')")
  end.

Definition toLocalModel (modelId : string) : ModelConfig :=
  mkModel modelId (formatLocalModelName modelId) "ollama-local" modelId
    ("Local Ollama model: " +:+ formatLocalModelName modelId)
    true (Some Local).

Definition localAttempt (env : Env) : Net (option (list ModelConfig)) :=
  response ← request env (getOllamaLocalEndpoint env +:+ "/api/tags");
  if negb (ok response) then mret None
  else
    data ← lift (json response);
    models ← lift (localModelsOf data);
    names ← lift (mapM nameOf models);
    let allModels :=
      map toLocalModel
        (filter (fun n => endsWith n ":cloud" = false) names) in
    let localModels :=
      filter (fun m => supportsToolCalling (id m) = true) allModels in
    mret (Some localModels).

Definition localFresh (now : Z) (st : Caches) : bool :=
  (0 <? length (ollamaLocalModelsCache st))%nat
  && (now - ollamaLocalModelsCacheTime st <? OLLAMA_CACHE_TTL).

Definition fetchOllamaLocalModels (env : Env) (now : Z) (st : Caches)
    : list ModelConfig * Caches * list string :=
  if localFresh now st then (ollamaLocalModelsCache st, st, [])
  else
    match localAttempt env with
    | (Returns (Some localModels), log) =>
        (localModels,
         mkCaches (ollamaModelsCache st) (ollamaModelsCacheTime st)
           localModels now,
         log)
    | (Returns None, log) => ([], st, log)
    | (Throws _, log) => ([], st, log)
    end.

(** *** The [models:list] handler *)

Definition isOllamaProvider (p : string) : bool :=
  String.eqb p "ollama-local" || String.eqb p "ollama-cloud".

Definition withAvailability (env : Env) (m : ModelConfig) : ModelConfig :=
  mkModel (id m) (name m) (provider m) (model m) (description m)
    (match ollamaMode m with
     | Some Local => true
     | _ => hasApiKey env (provider m)
     end)
    (ollamaMode m).

Definition staticModelsFor (ollamaCloudModels ollamaLocalModels : list ModelConfig)
    : list ModelConfig :=
  if (0 <? length ollamaCloudModels)%nat || (0 <? length ollamaLocalModels)%nat
  then filter (fun m => isOllamaProvider (provider m) = false) AVAILABLE_MODELS
  else AVAILABLE_MODELS.

(** The two discovery calls start one after the other, each reading the
    clock as it starts; they touch disjoint caches. *)
Definition models_list (env : Env) (nowCloud nowLocal : Z) (st : Caches)
    : list ModelConfig * Caches * list string :=
  let '(ollamaCloudModels, st1, log1) := fetchOllamaCloudModels env nowCloud st in
  let '(ollamaLocalModels, st2, log2) := fetchOllamaLocalModels env nowLocal st1 in
  let staticModels := staticModelsFor ollamaCloudModels ollamaLocalModels in
  let allModels := staticModels ++ ollamaCloudModels ++ ollamaLocalModels in
  (map (withAvailability env) allModels, st2, log1 ++ log2).

(** [models:refreshOllama] and [models:refreshOllamaLocal] *)
Definition models_refreshOllama (env : Env) (now : Z) (st : Caches)
    : nat * Caches * list string :=
  let st0 := mkCaches (ollamaModelsCache st) 0
               (ollamaLocalModelsCache st) (ollamaLocalModelsCacheTime st) in
  let '(models, st', log) := fetchOllamaCloudModels env now st0 in
  (length models, st', log).

Definition models_refreshOllamaLocal (env : Env) (now : Z) (st : Caches)
    : nat * Caches * list string :=
  let st0 := mkCaches (ollamaModelsCache st) (ollamaModelsCacheTime st)
               (ollamaLocalModelsCache st) 0 in
  let '(models, st', log) := fetchOllamaLocalModels env now st0 in
  (length models, st', log).

(** What local discovery keeps of the names the server lists. *)
Definition keptLocally (n : string) : Prop :=
  endsWith n ":cloud" = false /\ supportsToolCalling n = true.

(** The three components of what a discovery call or [models:list]
    gives. *)
Definition modelsOf {A : Type} (r : A * Caches * list string) : A := r.1.1.
Definition cachesOf {A : Type} (r : A * Caches * list string) : Caches := r.1.2.
Definition requestsOf {A : Type} (r : A * Caches * list string) : list string := r.2.

End Catalog.

(* ===================================================================== *)
(** ** Workspace binding, snapshot and file reads *)
(* ===================================================================== *)

Module Workspace.
Import JsString.

(** *** Threads, settings and watchers *)

(** Modelled from the spec: the thread store ('../db') is not part of the
    sources. A thread's metadata is a JSON object whose only field the
    handlers look at is [workspacePath : string | null]; the other keys
    are kept as they are. [workspacePath = None] stands for a key that is
    absent or null, which no handler tells apart. *)
Record Metadata : Type := mkMetadata {
  workspacePath : option string;
  otherKeys : gmap string string
}.

(** Modelled from the spec: a stored thread, with its metadata ([None]
    when the thread has no metadata string). *)
Record Thread : Type := mkThread {
  metadata : option Metadata
}.

(** The calls that change a collaborator, in the order they are made. *)
Inductive Call : Type :=
  | UpdateThread (threadId : string) (m : Metadata)
  | StartWatching (threadId path : string)
  | StopWatching (threadId : string)
  | StoreSet (key value : string)
  | StoreDelete (key : string).

Record World : Type := mkWorld {
  threads : gmap string Thread;
  settings : gmap string string;
  watchers : gmap string string;
  calls : list Call
}.

(** Modelled from the spec: [getThread(id)] of the thread store, which
    gives the thread or nothing. *)
Definition getThread (w : World) (threadId : string) : option Thread :=
  threads w !! threadId.

(** Modelled from the spec: [updateThread(id, {metadata})] of the thread
    store, which replaces the metadata of the thread. *)
Definition updateThread (w : World) (threadId : string) (m : Metadata) : World :=
  mkWorld (alter (fun _ => mkThread (Some m)) threadId (threads w))
    (settings w) (watchers w) (calls w ++ [UpdateThread threadId m]).

(** Modelled from the spec: [startWatching] of the watcher service
    ('../services/workspace-watcher'), which replaces the watch of the
    thread. *)
Definition startWatching (w : World) (threadId path : string) : World :=
  mkWorld (threads w) (settings w) (<[threadId := path]> (watchers w))
    (calls w ++ [StartWatching threadId path]).

(** Modelled from the spec: [stopWatching] of the watcher service, which
    drops the watch of the thread when there is one. *)
Definition stopWatching (w : World) (threadId : string) : World :=
  mkWorld (threads w) (settings w) (delete threadId (watchers w))
    (calls w ++ [StopWatching threadId]).

(** [store.set(key, value)] and [store.delete(key)] of the settings
    store. *)
Definition storeSet (w : World) (key value : string) : World :=
  mkWorld (threads w) (<[key := value]> (settings w)) (watchers w)
    (calls w ++ [StoreSet key value]).

Definition storeDelete (w : World) (key : string) : World :=
  mkWorld (threads w) (delete key (settings w)) (watchers w)
    (calls w ++ [StoreDelete key]).

(** An optional string argument that is given and not empty. *)
Definition given (a : option string) : option string :=
  match a with
  | Some s => if truthy s then Some s else None
  | None => None
  end.

(** [thread.metadata ? JSON.parse(thread.metadata) : {}] *)
Definition metadataOf (th : Thread) : Metadata :=
  default (mkMetadata None ∅) (metadata th).

(** *** [workspace:get] *)
Definition workspace_get (w : World) (threadId : option string)
    : option string :=
  match given threadId with
  | None => settings w !! "workspacePath"
  | Some threadId =>
      match getThread w threadId with
      | None => None
      | Some thread =>
          match metadata thread with
          | None => None
          | Some m => given (workspacePath m)
          end
      end
  end.

(** *** [workspace:set] *)
Definition workspace_set (w : World) (threadId newPath : option string)
    : option string * World :=
  match given threadId with
  | None =>
      match given newPath with
      | Some p => (newPath, storeSet w "workspacePath" p)
      | None => (newPath, storeDelete w "workspacePath")
      end
  | Some threadId =>
      match getThread w threadId with
      | None => (None, w)
      | Some thread =>
          let m := mkMetadata newPath (otherKeys (metadataOf thread)) in
          let w1 := updateThread w threadId m in
          let w2 :=
            match given newPath with
            | Some p => startWatching w1 threadId p
            | None => stopWatching w1 threadId
            end in
          (newPath, w2)
      end
  end.

(** *** [workspace:select] *)
Record DialogResult : Type := mkDialogResult {
  canceled : bool;
  filePaths : list string
}.

Definition workspace_select (w : World) (dialog : DialogResult)
    (threadId : option string) : option string * World :=
  match filePaths dialog with
  | selectedPath :: _ =>
      if canceled dialog then (None, w)
      else
        match given threadId with
        | Some threadId =>
            match getThread w threadId with
            | Some thread =>
                let m := mkMetadata (Some selectedPath)
                           (otherKeys (metadataOf thread)) in
                (Some selectedPath,
                 startWatching (updateThread w threadId m) threadId selectedPath)
            | None => (Some selectedPath, w)
            end
        | None => (Some selectedPath, storeSet w "workspacePath" selectedPath)
        end
  | [] => (None, w)
  end.

(** *** The disk *)

Record Stats : Type := mkStats {
  isDirectory : bool;
  size : N;
  mtime : string    (* [stat.mtime.toISOString()] *)
}.

(** What [fs.readdir(dir, { withFileTypes: true })] lists, together with
    what the walk obtains for each entry: the [fs.stat] of an entry that
    is not a directory, the [fs.readdir] of one that is. *)
#[local] Unset Elimination Schemes.
Inductive DirEntry : Type :=
  | EFile (name : string) (st : Try Stats)
  | EDir (name : string) (listing : Try (list DirEntry)).
#[local] Set Elimination Schemes.

Definition entryName (e : DirEntry) : string :=
  match e with
  | EFile name _ => name
  | EDir name _ => name
  end.

(** Induction over a directory tree: a readable directory satisfies [P]
    when all the entries it lists do. *)
Fixpoint DirEntry_tree_ind (P : DirEntry -> Prop)
    (HFile : forall name st, P (EFile name st))
    (HUnreadable : forall name err, P (EDir name (Throws err)))
    (HDir : forall name entries,
        Forall P entries -> P (EDir name (Returns entries)))
    (e : DirEntry) {struct e} : P e :=
  match e with
  | EFile name st => HFile name st
  | EDir name (Throws err) => HUnreadable name err
  | EDir name (Returns entries) =>
      HDir name entries
        ((fix all (l : list DirEntry) : Forall P l :=
            match l with
            | [] => @List.Forall_nil _ P
            | x :: xs =>
                @List.Forall_cons _ P x xs
                  (DirEntry_tree_ind P HFile HUnreadable HDir x) (all xs)
            end) entries)
  end.

(** What reading a file gives: its bytes (the Buffer of
    [fs.readFile(path)]) and the text Node decodes them to
    ([fs.readFile(path, 'utf-8')], which replaces what is not UTF-8 by
    U+FFFD, so the text does not determine the bytes). *)
Record FileContent : Type := mkContent {
  content_bytes : string;
  content_text : string
}.

Record Disk : Type := mkDisk {
  cwd : string;                              (* [process.cwd()] *)
  readdir : string -> Try (list DirEntry);
  stat : string -> Try Stats;
  readFile : string -> Try FileContent
}.

(** *** [workspace:loadFromDisk] *)

Record FileInfo : Type := mkFileInfo {
  path : string;
  is_dir : bool;
  file_size : option N;
  modified_at : option string
}.

Record LoadResult : Type := mkLoadResult {
  load_success : bool;
  load_error : option string;
  files : list FileInfo;
  load_workspacePath : option string
}.

(** [entry.name.startsWith('.') || entry.name === 'node_modules'] *)
Definition skipped (name : string) : bool :=
  startsWith name "." || String.eqb name "node_modules".

Definition relPathOf (relativePath name : string) : string :=
  if truthy relativePath then relativePath +:+ "/" +:+ name else name.

(** One iteration of the loop of [readDir], for the entry [e] of a
    directory whose relative path is [relativePath]; [acc] is the shared
    [files] array. *)
Fixpoint visit (relativePath : string) (e : DirEntry) (acc : list FileInfo)
    {struct e} : Try (list FileInfo) :=
  match e with
  | EFile name st =>
      if skipped name then Returns acc
      else
        match st with
        | Throws err => Throws err
        | Returns s =>
            Returns (acc ++ [mkFileInfo ("/" +:+ relPathOf relativePath name)
                               false (Some (size s)) (Some (mtime s))])
        end
  | EDir name listing =>
      if skipped name then Returns acc
      else
        let relPath := relPathOf relativePath name in
        match listing with
        | Throws err => Throws err
        | Returns entries =>
            (fix loop (es : list DirEntry) (acc : list FileInfo)
               : Try (list FileInfo) :=
               match es with
               | [] => Returns acc
               | e' :: es' =>
                   match visit relPath e' acc with
                   | Throws err => Throws err
                   | Returns acc' => loop es' acc'
                   end
               end)
              entries (acc ++ [mkFileInfo ("/" +:+ relPath) true None None])
        end
  end.

(** The loop of [readDir] over the entries of one directory. *)
Fixpoint visitAll (relativePath : string) (es : list DirEntry)
    (acc : list FileInfo) : Try (list FileInfo) :=
  match es with
  | [] => Returns acc
  | e :: es' =>
      match visit relativePath e acc with
      | Throws err => Throws err
      | Returns acc' => visitAll relativePath es' acc'
      end
  end.

(** [readDir(dirPath, relativePath)], given what [fs.readdir(dirPath)]
    answers. *)
Definition readDir (listing : Try (list DirEntry)) (relativePath : string)
    (acc : list FileInfo) : Try (list FileInfo) :=
  entries ← listing; visitAll relativePath entries acc.

(** The tree without the entries the walk skips, at every depth. *)
Fixpoint prune (e : DirEntry) : DirEntry :=
  match e with
  | EDir name (Returns entries) =>
      EDir name
        (Returns
           ((fix go (l : list DirEntry) : list DirEntry :=
               match l with
               | [] => []
               | x :: xs =>
                   if skipped (entryName x) then go xs else prune x :: go xs
               end) entries))
  | _ => e
  end.

Fixpoint pruneAll (es : list DirEntry) : list DirEntry :=
  match es with
  | [] => []
  | x :: xs => if skipped (entryName x) then pruneAll xs else prune x :: pruneAll xs
  end.

(** A name as a file system gives it: without a '/' in it. *)
Definition plainName (name : string) : bool :=
  forallb (fun c => negb (Path.isSep c)) (chars name).

Fixpoint wellNamed (e : DirEntry) : bool :=
  plainName (entryName e)
  && match e with
     | EDir _ (Returns entries) => forallb wellNamed entries
     | _ => true
     end.

(** The components of a virtual path. *)
Definition components (virtualPath : string) : list string :=
  split Path.isSep virtualPath.

(** A component the walk would not have skipped, and a listed entry all of
    whose components are such. *)
Definition unskipped (c : string) : Prop := skipped c = false.

Definition cleanPath (f : FileInfo) : Prop :=
  Forall unskipped (components (path f)).

Definition boundPath (w : World) (threadId : string) : option string :=
  given (workspacePath (from_option metadataOf (mkMetadata None ∅)
                          (getThread w threadId))).

Definition workspace_loadFromDisk (w : World) (fs : Disk) (threadId : string)
    : Try LoadResult :=
  match boundPath w threadId with
  | None =>
      Returns (mkLoadResult false (Some "No workspace folder linked") [] None)
  | Some workspacePath =>
      match readDir (readdir fs workspacePath) "" [] with
      | Returns files =>
          Returns (mkLoadResult true None files (Some workspacePath))
      | Throws e =>
          Returns (mkLoadResult false (Some (errorMessage e)) [] None)
      end
  end.

(** The disk whose directory listings are pruned. *)
Definition pruneDisk (fs : Disk) : Disk :=
  mkDisk (cwd fs)
    (fun p => match readdir fs p with
              | Returns entries => Returns (pruneAll entries)
              | Throws err => Throws err
              end)
    (stat fs) (readFile fs).

(** *** [workspace:readFile] and [workspace:readBinaryFile] *)

Record ReadResult : Type := mkReadResult {
  success : bool;
  error : option string;
  content : option string;
  read_size : option N;
  read_modified_at : option string
}.

Definition failure (message : string) : ReadResult :=
  mkReadResult false (Some message) None None None.

Definition base64Alphabet : list ascii :=
  chars "ABCDEFGHIJKLMNOPQRSTUVWXYZabcdefghijklmnopqrstuvwxyz0123456789+/".

Definition base64Char (n : N) : ascii :=
  nth (N.to_nat n) base64Alphabet "="%char.

(** [buffer.toString('base64')] *)
Fixpoint base64 (bytes : list N) : string :=
  match bytes with
  | [] => ""
  | [a] =>
      String (base64Char (a / 4))
        (String (base64Char ((a mod 4) * 16)) "==")
  | [a; b] =>
      String (base64Char (a / 4))
        (String (base64Char ((a mod 4) * 16 + b / 16))
           (String (base64Char ((b mod 16) * 4)) "="))
  | a :: b :: c :: rest =>
      String (base64Char (a / 4))
        (String (base64Char ((a mod 4) * 16 + b / 16))
           (String (base64Char ((b mod 16) * 4 + c / 64))
              (String (base64Char (c mod 64)) (base64 rest))))
  end%N.

Definition bytesOf (s : string) : list N := map N_of_ascii (chars s).

Inductive Encoding : Type := Utf8 | Base64.

(** The content a handler returns: the decoded text for the text read,
    the base64 form of the bytes for the binary read. *)
Definition encode (enc : Encoding) (c : FileContent) : string :=
  match enc with
  | Utf8 => content_text c
  | Base64 => base64 (bytesOf (content_bytes c))
  end.

Definition relativeOf (filePath : string) : string :=
  if startsWith filePath "/" then slice1 filePath else filePath.

Definition fullPathOf (workspacePath filePath : string) : string :=
  Path.join [workspacePath; relativeOf filePath].

(** The security check: [resolvedPath.startsWith(resolvedWorkspace)]. *)
Definition withinWorkspace (fs : Disk) (workspacePath fullPath : string) : bool :=
  let resolvedPath := Path.resolve (cwd fs) [fullPath] in
  let resolvedWorkspace := Path.resolve (cwd fs) [workspacePath] in
  startsWith resolvedPath resolvedWorkspace.

(** Containment in the spec's words (4.1), on canonical forms: the
    candidate is the root itself or a descendant of it. *)
Definition descendantOrEqual (canonicalRoot candidate : string) : bool :=
  String.eqb candidate canonicalRoot
  || startsWith candidate
       (if endsWith canonicalRoot "/" then canonicalRoot
        else canonicalRoot +:+ "/").

(** The body of the [try] block of the two read handlers, which differ in
    the encoding of the content only. *)
Definition readBody (enc : Encoding) (fs : Disk)
    (workspacePath filePath : string) : Try ReadResult :=
  let fullPath := fullPathOf workspacePath filePath in
  if negb (withinWorkspace fs workspacePath fullPath) then
    Returns (failure "Access denied: path outside workspace")
  else
    st ← stat fs fullPath;
    if isDirectory st then Returns (failure "Cannot read directory as file")
    else
      c ← readFile fs fullPath;
      Returns (mkReadResult true None (Some (encode enc c))
                 (Some (size st)) (Some (mtime st))).

(** [try { ... } catch (e) { return { success: false, error: ... } }] *)
Definition catching (body : Try ReadResult) : Try ReadResult :=
  match body with
  | Returns r => Returns r
  | Throws e => Returns (failure (errorMessage e))
  end.

(** What a thread's metadata string is to the handlers, by what
    [JSON.parse] makes of it: an object (whose [workspacePath] is a string,
    null or absent, as the handlers' cast [as string | null] takes it), the
    JSON null, another value (a number, a string, a boolean, an array: its
    [workspacePath] is undefined), or no JSON at all (the parse throws a
    SyntaxError with the message given). *)
Inductive MetadataText : Type :=
  | TextObject (m : Metadata)
  | TextNull
  | TextOther
  | TextInvalid (message : string).

(** A thread as [getThread] hands it over, with its metadata string
    ([None] when it is null or empty). *)
Record StoredThread : Type := mkStoredThread {
  storedMetadata : option MetadataText
}.

(** The first statements of the read handlers, which run before their
    [try] block: [thread?.metadata ? JSON.parse(thread.metadata) : {}],
    then the read of [metadata.workspacePath]. [thread] is what
    [getThread(threadId)] gave. *)
Definition lookupWorkspacePath (thread : option StoredThread)
    : Try (option string) :=
  match thread with
  | None => Returns None
  | Some t =>
      match storedMetadata t with
      | None => Returns None
      | Some (TextObject m) => Returns (workspacePath m)
      | Some TextNull =>
          Throws (ErrorObject
                    "Cannot read properties of null (reading 'workspacePath')")
      | Some TextOther => Returns None
      | Some (TextInvalid message) => Throws (ErrorObject message)
      end
  end.

(** A read handler, given what [getThread] answers. *)
Definition readHandlerOn (enc : Encoding) (thread : option StoredThread)
    (fs : Disk) (filePath : string) : Try ReadResult :=
  workspacePath ← lookupWorkspacePath thread;
  match given workspacePath with
  | None => Returns (failure "No workspace folder linked")
  | Some workspacePath => catching (readBody enc fs workspacePath filePath)
  end.

(** Modelled from the spec: what [getThread] answers in a world whose
    threads keep the persisted layout, every metadata string being a JSON
    object. *)
Definition storedThread (w : World) (threadId : string)
    : option StoredThread :=
  (fun th => mkStoredThread (TextObject <$> metadata th))
    <$> getThread w threadId.

Definition readHandler (enc : Encoding) (w : World) (fs : Disk)
    (threadId filePath : string) : Try ReadResult :=
  readHandlerOn enc (storedThread w threadId) fs filePath.

Definition workspace_readFile : World -> Disk -> string -> string -> Try ReadResult :=
  readHandler Utf8.

Definition workspace_readBinaryFile : World -> Disk -> string -> string -> Try ReadResult :=
  readHandler Base64.

End Workspace.

(* ===================================================================== *)
(** ** Model routing, providers and the default model *)
(* ===================================================================== *)

Module Routing.
Import JsString Catalog Workspace.

(** [s.includes(sub)] *)
Fixpoint includes (s sub : string) : bool :=
  startsWith s sub
  || match s with
     | EmptyString => false
     | String _ s' => includes s' sub
     end.

(** [m.id === modelId || m.model === modelId] *)
Definition namesModel (modelId : string) (m : ModelConfig) : bool :=
  String.eqb (id m) modelId || String.eqb (model m) modelId.

Definition ollamaModelPrefixes : list string :=
  ["qwen"; "deepseek"; "gpt-oss"; "glm"; "kimi"; "cogito"; "minimax";
   "ministral"; "mistral-large"; "devstral"; "nemotron"; "rnj"; "gemma"].

(** The fallback of [isOllamaCloudModel], used while the cloud cache is
    empty. *)
Definition matchesCloudPattern (modelId : string) : bool :=
  includes modelId ":cloud"
  || existsb (fun prefix => startsWith modelId prefix) ollamaModelPrefixes
  || (startsWith modelId "gemini-3" && includes modelId "preview").

Definition isOllamaCloudModel (st : Caches) (modelId : string) : bool :=
  if (0 <? length (ollamaModelsCache st))%nat
  then existsb (namesModel modelId) (ollamaModelsCache st)
  else matchesCloudPattern modelId.

Definition isOllamaLocalModel (st : Caches) (modelId : string) : bool :=
  if (0 <? length (ollamaLocalModelsCache st))%nat
  then existsb (namesModel modelId) (ollamaLocalModelsCache st)
  else false.

Definition isOllamaModel (st : Caches) (modelId : string) : bool :=
  isOllamaCloudModel st modelId || isOllamaLocalModel st modelId.

(** The provider table and [models:listProviders]. *)
Record ProviderInfo : Type := mkProvider {
  provider_id : string;
  provider_name : string
}.

Definition PROVIDERS : list ProviderInfo :=
  [ mkProvider "anthropic" "Anthropic";
    mkProvider "openai" "OpenAI";
    mkProvider "google" "Google";
    mkProvider "ollama-local" "Ollama Local";
    mkProvider "ollama-cloud" "Ollama Cloud" ].

Definition models_listProviders (env : Env) : list (ProviderInfo * bool) :=
  map (fun p => (p, hasApiKey env (provider_id p))) PROVIDERS.

(** [store.get('defaultModel', 'claude-sonnet-4-5-20250929')]:
    [models:getDefault] and [getDefaultModel]. *)
Definition getDefaultModel (w : World) : string :=
  default "claude-sonnet-4-5-20250929" (settings w !! "defaultModel").

(** [models:setDefault] *)
Definition models_setDefault (w : World) (modelId : string) : World :=
  storeSet w "defaultModel" modelId.

(** The caches a process can hold: they start empty and only the three
    handlers that call the discovery functions write them. *)
Inductive Reachable : Caches -> Prop :=
  | reach_start : Reachable initialCaches
  | reach_list env nowCloud nowLocal st :
      Reachable st ->
      Reachable (cachesOf (models_list env nowCloud nowLocal st))
  | reach_refreshCloud env now st :
      Reachable st -> Reachable (cachesOf (models_refreshOllama env now st))
  | reach_refreshLocal env now st :
      Reachable st -> Reachable (cachesOf (models_refreshOllamaLocal env now st)).

(** What every entry made by cloud discovery looks like. *)
Definition cloudShaped (m : ModelConfig) : Prop :=
  provider m = "ollama-cloud" /\ ollamaMode m = Some Cloud
  /\ available m = true /\ model m = id m.

(** What every entry made by local discovery looks like. *)
Definition localShaped (m : ModelConfig) : Prop :=
  provider m = "ollama-local" /\ ollamaMode m = Some Local
  /\ available m = true /\ model m = id m
  /\ name m = formatLocalModelName (id m)
  /\ supportsToolCalling (id m) = true
  /\ endsWith (id m) ":cloud" = false.

Definition wellShaped (st : Caches) : Prop :=
  Forall cloudShaped (ollamaModelsCache st)
  /\ Forall localShaped (ollamaLocalModelsCache st).

(** The three URLs discovery may request. *)
Definition discoveryUrls (env : Env) : list string :=
  [ "https://ollama.com/v1/models"; "https://ollama.com/api/tags";
    getOllamaLocalEndpoint env +:+ "/api/tags" ].

(** A response entry [r] made from the merged entry [m]: every field of
    [m] but the availability flag, which is [flag]. *)
Definition recomputed (flag : bool) (m r : ModelConfig) : Prop :=
  id r = id m /\ name r = name m /\ provider r = provider m
  /\ model r = model m /\ description r = description m
  /\ ollamaMode r = ollamaMode m /\ available r = flag.


End Routing.

(* ===================================================================== *)
(** ** Vocabulary for the walk of [readDir] *)
(* ===================================================================== *)

Module Walk.
Import JsString Workspace.

(** An entry the walk looks at and cannot read, at any depth. *)
Fixpoint failing (e : DirEntry) : bool :=
  negb (skipped (entryName e))
  && match e with
     | EFile _ (Throws _) => true
     | EFile _ (Returns _) => false
     | EDir _ (Throws _) => true
     | EDir _ (Returns entries) => existsb failing entries
     end.

(** The number of entries the walk emits for a tree it can read. *)
Fixpoint emitted (e : DirEntry) : nat :=
  if skipped (entryName e) then 0%nat
  else match e with
       | EDir _ (Returns entries) => S (list_sum (map emitted entries))
       | _ => 1%nat
       end.

(** Every name of the tree is non-empty. *)
Fixpoint named (e : DirEntry) : bool :=
  truthy (entryName e)
  && match e with
     | EDir _ (Returns entries) => forallb named entries
     | _ => true
     end.

Definition succeeded {A : Type} (t : Try A) : bool :=
  match t with
  | Returns _ => true
  | Throws _ => false
  end.

(** An emitted entry as the walk builds it: a rooted path, and size and
    modification time exactly for what is not a directory. *)
Definition entryShaped (f : FileInfo) : Prop :=
  startsWith (path f) "/" = true
  /\ (is_dir f = true -> file_size f = None /\ modified_at f = None)
  /\ (is_dir f = false -> is_Some (file_size f) /\ is_Some (modified_at f)).

(** The path of an emitted entry lies below the directory whose relative
    path is [rel]. *)
Definition under (rel : string) (f : FileInfo) : Prop :=
  startsWith (path f) ("/" +:+ rel +:+ "/") = true.

End Walk.

(* ===================================================================== *)
(** ** Concrete scenarios used by the examples below *)
(* ===================================================================== *)

Module Scenario.
Import Catalog Workspace.

Definition raw (n : string) : RawModel := mkRaw None (Some n) None None.

(** A local server that lists four models; no credentials stored. *)
Definition localBody : JsonBody :=
  JObject None
    (Some [raw "llama3.2:3b"; raw "gemma2:9b"; raw "qwen3:cloud";
           raw "functiongemma:latest"]).

Definition envLocalOnly : Env :=
  mkEnv (fun _ => None) (fun _ => false) "http://localhost:11434"
    (fun _ => Returns (mkResponse true (Returns localBody))).

(** Nothing reachable and no credentials. *)
Definition envOffline : Env :=
  mkEnv (fun _ => None) (fun _ => false) "http://localhost:11434"
    (fun _ => Throws (ErrorObject "fetch failed")).

(** A stored cloud key; every request fails. *)
Definition envCloudKey : Env :=
  mkEnv (fun p => if String.eqb p "ollama-cloud" then Some "sk-1" else None)
    (fun p => String.eqb p "ollama-cloud") "http://localhost:11434"
    (fun _ => Throws (ErrorObject "fetch failed")).

Definition cachedCloudModel : ModelConfig :=
  mkModel "glm-4.6" "Glm 4.6" "ollama-cloud" "glm-4.6"
    "Ollama Cloud model: glm-4.6" true (Some Cloud).

(** Caches holding one cloud model fetched at time 0. *)
Definition cloudCached : Caches := mkCaches [cachedCloudModel] 0 [] 0.

(** One thread, "t1", bound to /ws; it also carries a key of another
    subsystem. *)
Definition world : World :=
  mkWorld
    {[ "t1" := mkThread (Some (mkMetadata (Some "/ws") {[ "model" := "gpt-5.2" ]})) ]}
    ∅ ∅ [].

Definition secretStats : Stats := mkStats false 10 "2026-01-01T00:00:00.000Z".
Definition fileStats : Stats := mkStats false 2 "2026-01-02T00:00:00.000Z".
Definition dirStats : Stats := mkStats true 4096 "2026-01-03T00:00:00.000Z".

Definition noEntry : Thrown := ErrorObject "ENOENT: no such file or directory".

(** The workspace /ws holds file.txt, a hidden .git and src; next to it
    lies /ws-evil with a file of its own. *)
Definition tree : list DirEntry :=
  [ EFile "file.txt" (Returns fileStats);
    EDir ".git" (Returns [EFile "HEAD" (Throws noEntry)]);
    EDir "src"
      (Returns [EFile "a.ts" (Returns fileStats);
                EDir "node_modules" (Throws noEntry);
                EFile ".env" (Returns fileStats)]) ].

Definition disk : Disk :=
  mkDisk "/"
    (fun p => if String.eqb p "/ws" then Returns tree else Throws noEntry)
    (fun p =>
       if String.eqb p "/ws-evil/secret.txt" then Returns secretStats
       else if String.eqb p "/ws/file.txt" then Returns fileStats
       else if String.eqb p "/ws/src" then Returns dirStats
       else Throws noEntry)
    (fun p =>
       if String.eqb p "/ws-evil/secret.txt"
       then Returns (mkContent "top secret" "top secret")
       else if String.eqb p "/ws/file.txt" then Returns (mkContent "hi" "hi")
       else Throws noEntry).

End Scenario.

Module MoreScenarios.
Import Catalog Workspace.

(** Caches holding one cloud and one local model, both fetched at time 0. *)
Definition bothCached : Caches :=
  mkCaches [Scenario.cachedCloudModel] 0 [toLocalModel "llama3.2:3b"] 0.

(** The caches after one [models:list] against the local server of the
    scenario. *)
Definition afterLocalListing : Caches :=
  cachesOf (models_list Scenario.envLocalOnly 1000 1000 initialCaches).

(** A cloud answer in the OpenAI shape, and a stored cloud key. *)
Definition cloudBody : JsonBody :=
  JObject (Some [mkRaw (Some "glm-4.6") None None None;
                 mkRaw None (Some "kimi-k2:cloud") None (Some "Kimi K2")])
    None.

Definition envCloudOnline : Env :=
  mkEnv (fun p => if String.eqb p "ollama-cloud" then Some "sk-1" else None)
    (fun p => String.eqb p "ollama-cloud") "http://localhost:11434"
    (fun u => if String.eqb u "https://ollama.com/v1/models"
              then Returns (mkResponse true (Returns cloudBody))
              else Throws (ErrorObject "fetch failed")).

(** A local server that lists an entry without a name. *)
Definition malformedBody : JsonBody :=
  JObject None (Some [Scenario.raw "llama3.2:3b"; mkRaw None None None None]).

Definition envMalformed : Env :=
  mkEnv (fun _ => None) (fun _ => false) "http://localhost:11434"
    (fun _ => Returns (mkResponse true (Returns malformedBody))).

(** A tree in which a visible file cannot be stat'ed. *)
Definition brokenTree : list DirEntry :=
  [ EFile "a.txt" (Returns Scenario.fileStats);
    EDir "src" (Returns [EFile "gone.ts" (Throws Scenario.noEntry)]) ].

Definition brokenDisk : Disk :=
  mkDisk "/"
    (fun p => if String.eqb p "/ws" then Returns brokenTree
              else Throws Scenario.noEntry)
    (fun _ => Throws Scenario.noEntry)
    (fun _ => Throws Scenario.noEntry).




Definition picked : DialogResult := mkDialogResult false ["/picked"].
Definition cancelled : DialogResult := mkDialogResult true [].

End MoreScenarios.

(* ===================================================================== *)
(** ** Sanity checks of the embedding on concrete inputs *)
(* ===================================================================== *)

Example path_join_inside : Path.join ["/ws"; "a/b.txt"] = "/ws/a/b.txt".
Proof. reflexivity. Qed.
Example path_join_dotdot : Path.join ["/ws"; "../etc/passwd"] = "/etc/passwd".
Proof. reflexivity. Qed.
Example path_join_slashes : Path.join ["/ws/"; "/abs//x/./y/"] = "/ws/abs/x/y/".
Proof. reflexivity. Qed.
Example path_join_relative : Path.join ["ws"; "../../x"] = "../x".
Proof. reflexivity. Qed.
Example path_resolve_relative : Path.resolve "/home/u" ["proj/../ws/"] = "/home/u/ws".
Proof. reflexivity. Qed.
Example path_resolve_absolute : Path.resolve "/home/u" ["/ws/a/.."] = "/ws".
Proof. reflexivity. Qed.
Example path_resolve_root : Path.resolve "/home/u" ["/.."] = "/".
Proof. reflexivity. Qed.
Example split_trailing :
  JsString.split (JsString.is_char ":"%char) "a:b:" = ["a"; "b"; ""].
Proof. reflexivity. Qed.
Example formatModelName_cloud :
  Catalog.formatModelName "gpt-oss:120b:cloud" = "Gpt Oss 120b".
Proof. reflexivity. Qed.
Example formatLocalModelName_tag :
  Catalog.formatLocalModelName "codellama:latest" = "Codellama (LATEST)".
Proof. reflexivity. Qed.
Example base64_pad :
  Workspace.base64 (Workspace.bytesOf "hi") = "aGk="
  /\ Workspace.base64 (Workspace.bytesOf "Man") = "TWFu".
Proof. split; reflexivity. Qed.
Example AVAILABLE_MODELS_length : length Catalog.AVAILABLE_MODELS = 25%nat.
Proof. reflexivity. Qed.

(* ===================================================================== *)
(** ** Properties of the model catalog *)
(* ===================================================================== *)

Section CatalogProperties.
Import JsString Catalog.

Lemma length_pos_nonempty {A : Type} (l : list A) :
  (0 <? length l)%nat = true <-> l <> [].
Proof.
  destruct l; simpl; split; intros H; try done.
Qed.

Lemma localFresh_spec now st :
  localFresh now st = true <->
  now - ollamaLocalModelsCacheTime st < 300000
  /\ ollamaLocalModelsCache st <> [].
Proof.
  unfold localFresh, OLLAMA_CACHE_TTL.
  rewrite andb_true_iff, length_pos_nonempty, Z.ltb_lt. simpl. tauto.
Qed.

Lemma cloudFresh_spec now st :
  cloudFresh now st = true <->
  now - ollamaModelsCacheTime st < 300000
  /\ ollamaModelsCache st <> [].
Proof.
  unfold cloudFresh, OLLAMA_CACHE_TTL.
  rewrite andb_true_iff, length_pos_nonempty, Z.ltb_lt. simpl. tauto.
Qed.

Lemma localAttempt_requests env :
  (localAttempt env).2 = [getOllamaLocalEndpoint env +:+ "/api/tags"].
Proof.
  unfold localAttempt, request, lift, mbind, Net_bind, mret, Net_ret.
  repeat (case_match; simpl in *; simplify_eq); reflexivity.
Qed.

Lemma cloudAttempt_requests env :
  exists rest, (cloudAttempt env).2 = "https://ollama.com/v1/models" :: rest.
Proof.
  unfold cloudAttempt, request, lift, mbind, Net_bind, mret, Net_ret.
  repeat (case_match; simpl in *; simplify_eq); eauto.
Qed.

Lemma fetchLocal_fresh env now st :
  localFresh now st = true ->
  fetchOllamaLocalModels env now st = (ollamaLocalModelsCache st, st, []).
Proof. intros H. unfold fetchOllamaLocalModels. by rewrite H. Qed.

Lemma fetchLocal_stale env now st :
  localFresh now st = false ->
  requestsOf (fetchOllamaLocalModels env now st)
  = [getOllamaLocalEndpoint env +:+ "/api/tags"].
Proof.
  intros H. unfold fetchOllamaLocalModels. rewrite H.
  pose proof (localAttempt_requests env) as Hlog.
  destruct (localAttempt env) as [[[l|]|e] log]; simpl in *; by subst.
Qed.

Lemma fetchCloud_fresh env now st :
  hasKey (getApiKey env "ollama-cloud") = true ->
  cloudFresh now st = true ->
  fetchOllamaCloudModels env now st = (ollamaModelsCache st, st, []).
Proof.
  intros Hk H. unfold fetchOllamaCloudModels. by rewrite Hk, H.
Qed.

Lemma fetchCloud_stale env now st :
  hasKey (getApiKey env "ollama-cloud") = true ->
  cloudFresh now st = false ->
  exists rest,
    requestsOf (fetchOllamaCloudModels env now st)
    = "https://ollama.com/v1/models" :: rest.
Proof.
  intros Hk H. unfold fetchOllamaCloudModels. rewrite Hk, H. simpl.
  destruct (cloudAttempt_requests env) as [rest Hlog].
  exists rest.
  destruct (cloudAttempt env) as [[[l|]|e] log]; simpl in *; by subst.
Qed.

Lemma fetchCloud_no_key env now st :
  hasKey (getApiKey env "ollama-cloud") = false ->
  fetchOllamaCloudModels env now st = ([], st, []).
Proof. intros Hk. unfold fetchOllamaCloudModels. by rewrite Hk. Qed.

(** C2, as stated, fails for the cloud source: without a stored key a
    fresh, non-empty cloud cache is not served, and a stale one triggers
    no request. *)
Lemma cloud_cache_without_key_counterexample :
  ollamaModelsCache Scenario.cloudCached <> []
  /\ 1000 - ollamaModelsCacheTime Scenario.cloudCached < 300000
  /\ modelsOf (fetchOllamaCloudModels Scenario.envOffline 1000 Scenario.cloudCached)
     <> ollamaModelsCache Scenario.cloudCached
  /\ ~ (400000 - ollamaModelsCacheTime Scenario.cloudCached < 300000)
  /\ requestsOf (fetchOllamaCloudModels Scenario.envOffline 400000 Scenario.cloudCached)
     = [].
Proof. repeat split; try done. Qed.

(** C2 (amended): for the local source, and for the cloud source when a
    cloud API key is stored, the cache is served without a request exactly
    when [now - fetchedAt < 300000] and the cached list is not empty;
    otherwise a request is made. Without a stored key the cloud source
    gives the empty list, with neither the cache nor a request. A call
    that follows one which left an empty list in the cache makes a
    request. *)
Theorem discovery_cache_freshness env now st :
  (localFresh now st = true <->
     now - ollamaLocalModelsCacheTime st < 300000
     /\ ollamaLocalModelsCache st <> [])
  /\ (cloudFresh now st = true <->
     now - ollamaModelsCacheTime st < 300000
     /\ ollamaModelsCache st <> [])
  /\ (localFresh now st = true ->
      fetchOllamaLocalModels env now st = (ollamaLocalModelsCache st, st, []))
  /\ (localFresh now st = false ->
      requestsOf (fetchOllamaLocalModels env now st)
      = [getOllamaLocalEndpoint env +:+ "/api/tags"])
  /\ (hasKey (getApiKey env "ollama-cloud") = true ->
      (cloudFresh now st = true ->
       fetchOllamaCloudModels env now st = (ollamaModelsCache st, st, []))
      /\ (cloudFresh now st = false ->
          exists rest,
            requestsOf (fetchOllamaCloudModels env now st)
            = "https://ollama.com/v1/models" :: rest))
  /\ (hasKey (getApiKey env "ollama-cloud") = false ->
      fetchOllamaCloudModels env now st = ([], st, []))
  /\ (forall env' now',
      let st' := cachesOf (fetchOllamaLocalModels env now st) in
      ollamaLocalModelsCache st' = [] ->
      requestsOf (fetchOllamaLocalModels env' now' st') <> [])
  /\ (forall env' now',
      let st' := cachesOf (fetchOllamaCloudModels env now st) in
      hasKey (getApiKey env' "ollama-cloud") = true ->
      ollamaModelsCache st' = [] ->
      requestsOf (fetchOllamaCloudModels env' now' st') <> []).
Proof.
  split; [apply localFresh_spec|].
  split; [apply cloudFresh_spec|].
  split; [apply fetchLocal_fresh|].
  split; [apply fetchLocal_stale|].
  split; [intros Hk; split; [by apply fetchCloud_fresh|by apply fetchCloud_stale]|].
  split; [apply fetchCloud_no_key|].
  split.
  - intros env' now' st' Hempty.
    rewrite fetchLocal_stale; [done|].
    apply not_true_is_false. rewrite localFresh_spec. tauto.
  - intros env' now' st' Hk Hempty.
    destruct (fetchCloud_stale env' now' st' Hk) as [rest ->]; [|done].
    apply not_true_is_false. rewrite cloudFresh_spec. tauto.
Qed.

(** A stored key and a fresh cloud cache: the cache is served. *)
Lemma discovery_cache_freshness_witness :
  fetchOllamaCloudModels Scenario.envCloudKey 1000 Scenario.cloudCached
  = ([Scenario.cachedCloudModel], Scenario.cloudCached, []).
Proof.
  destruct (discovery_cache_freshness Scenario.envCloudKey 1000 Scenario.cloudCached)
    as (_ & _ & _ & _ & Hcloud & _).
  destruct (Hcloud eq_refl) as [Hfresh _].
  exact (Hfresh eq_refl).
Defined.

(** *** Local discovery and the tool-calling gate *)

Lemma mapM_nameOf raws names :
  map raw_name raws = map Some names -> mapM nameOf raws = Returns names.
Proof.
  revert names. induction raws as [|r raws IH]; intros [|n names] H;
    simpl in H; try discriminate; [reflexivity|].
  injection H as Hr Hrest. simpl.
  assert (nameOf r = Returns n) as -> by (unfold nameOf; by rewrite Hr).
  by rewrite (IH names Hrest).
Qed.

Lemma localModels_ids names :
  map id
    (filter (fun m => supportsToolCalling (id m) = true)
       (map toLocalModel (filter (fun n => endsWith n ":cloud" = false) names)))
  = filter keptLocally names.
Proof.
  induction names as [|n names IH]; [reflexivity|].
  rewrite (filter_cons keptLocally),
    (filter_cons (fun n => endsWith n ":cloud" = false)).
  destruct (decide (keptLocally n)) as [[Hc Ht]|Hk].
  - rewrite decide_True by done. simpl.
    rewrite filter_cons. simpl. rewrite decide_True by done.
    simpl. by f_equal.
  - destruct (decide (endsWith n ":cloud" = false)) as [Hc|Hc]; [|done].
    simpl. rewrite filter_cons. simpl.
    rewrite decide_False; [done|].
    intros Ht. apply Hk. by split.
Qed.

Lemma localModels_flags names :
  Forall
    (fun m => available m = true /\ ollamaMode m = Some Local
              /\ provider m = "ollama-local")
    (filter (fun m => supportsToolCalling (id m) = true)
       (map toLocalModel (filter (fun n => endsWith n ":cloud" = false) names))).
Proof.
  apply Forall_forall. intros m Hm.
  apply list_elem_of_filter in Hm as [_ Hm].
  rewrite list_elem_of_In in Hm.
  apply in_map_iff in Hm as (n & <- & _). done.
Qed.

(** C4: [supportsToolCalling] on the four names of the scenario, and the
    gate of local discovery: of the names a successful response lists,
    exactly those that do not end in ':cloud' and pass [supportsToolCalling]
    are returned (and cached), each with [available = true]; the others do
    not appear at all. *)
Theorem local_discovery_tool_gate :
  supportsToolCalling "llama3.2:3b" = true
  /\ supportsToolCalling "gemma2:9b" = false
  /\ supportsToolCalling "functiongemma:latest" = true
  /\ supportsToolCalling "qwen2.5-coder:7b" = true
  /\ (forall n n',
        toLowerCase (hd "" (split (is_char ":"%char) n))
        = toLowerCase (hd "" (split (is_char ":"%char) n')) ->
        supportsToolCalling n = supportsToolCalling n')
  /\ (forall env now st body raws names,
        localFresh now st = false ->
        fetch env (getOllamaLocalEndpoint env +:+ "/api/tags")
        = Returns (mkResponse true (Returns body)) ->
        localModelsOf body = Returns raws ->
        map raw_name raws = map Some names ->
        let call := fetchOllamaLocalModels env now st in
        map id (modelsOf call) = filter keptLocally names
        /\ Forall (fun m => available m = true) (modelsOf call)
        /\ (forall n, n ∈ names ->
              supportsToolCalling n = false \/ endsWith n ":cloud" = true ->
              n ∉ map id (modelsOf call))
        /\ ollamaLocalModelsCache (cachesOf call) = modelsOf call).
Proof.
  repeat (split; [reflexivity|]).
  split.
  { intros n n' Hbase. unfold supportsToolCalling, baseNameOf, isColon.
    by rewrite Hbase. }
  intros env now st body raws names Hstale Hfetch Hbody Hnames call.
  assert (Hcall : call =
    (filter (fun m => supportsToolCalling (id m) = true)
       (map toLocalModel (filter (fun n => endsWith n ":cloud" = false) names)),
     mkCaches (ollamaModelsCache st) (ollamaModelsCacheTime st)
       (filter (fun m => supportsToolCalling (id m) = true)
          (map toLocalModel (filter (fun n => endsWith n ":cloud" = false) names)))
       now,
     [getOllamaLocalEndpoint env +:+ "/api/tags"])).
  { subst call. unfold fetchOllamaLocalModels. rewrite Hstale.
    unfold localAttempt, request, lift, mbind, Net_bind, mret, Net_ret.
    rewrite Hfetch. simpl. rewrite Hbody, (mapM_nameOf _ _ Hnames).
    reflexivity. }
  rewrite Hcall. unfold modelsOf, cachesOf. simpl.
  split; [apply localModels_ids|].
  split.
  { eapply Forall_impl; [apply localModels_flags|]. by intros m (H & _). }
  split; [|reflexivity].
  intros n _ Hbad. rewrite localModels_ids, list_elem_of_filter.
  unfold keptLocally. intros [[Hc Ht] _].
  destruct Hbad; congruence.
Qed.

(** A server listing a capable model, an incapable one, a ':cloud' one and
    functiongemma: two models are returned. *)
Lemma local_discovery_tool_gate_witness :
  map id (modelsOf (fetchOllamaLocalModels Scenario.envLocalOnly 1000 initialCaches))
  = ["llama3.2:3b"; "functiongemma:latest"].
Proof.
  destruct local_discovery_tool_gate as (_ & _ & _ & _ & _ & Hgate).
  destruct (Hgate Scenario.envLocalOnly 1000 initialCaches Scenario.localBody
              (map Scenario.raw
                 ["llama3.2:3b"; "gemma2:9b"; "qwen3:cloud"; "functiongemma:latest"])
              ["llama3.2:3b"; "gemma2:9b"; "qwen3:cloud"; "functiongemma:latest"]
              eq_refl eq_refl eq_refl eq_refl) as [Hids _].
  rewrite Hids. reflexivity.
Defined.

(** A forced refresh of the local source makes a request whenever the
    clock reads at least the time-to-live (as every real clock does). *)
Theorem refresh_local_requests env now st :
  300000 <= now ->
  requestsOf (models_refreshOllamaLocal env now st)
  = [getOllamaLocalEndpoint env +:+ "/api/tags"].
Proof.
  intros Hnow. unfold models_refreshOllamaLocal.
  set (st0 := mkCaches _ _ _ 0).
  assert (Hstale : localFresh now st0 = false).
  { apply not_true_is_false. rewrite localFresh_spec. simpl. lia. }
  pose proof (fetchLocal_stale env now st0 Hstale) as Hreq.
  destruct (fetchOllamaLocalModels env now st0) as [[models st'] log].
  exact Hreq.
Qed.

Lemma refresh_local_requests_witness :
  requestsOf (models_refreshOllamaLocal Scenario.envLocalOnly 1700000000000
                Scenario.cloudCached)
  = ["http://localhost:11434/api/tags"].
Proof.
  apply (refresh_local_requests Scenario.envLocalOnly 1700000000000
           Scenario.cloudCached). lia.
Defined.

(** *** [models:list] *)

(** C3: when a dynamic source gave at least one entry, the static entries
    of the two Ollama providers are left out of the merged list; when both
    gave none, the merged list is the whole static table. In both cases the
    availability flags are recomputed. *)
Theorem models_list_static_superseded env nowCloud nowLocal st :
  let cloudCall := fetchOllamaCloudModels env nowCloud st in
  let localCall := fetchOllamaLocalModels env nowLocal (cachesOf cloudCall) in
  let result := modelsOf (models_list env nowCloud nowLocal st) in
  (modelsOf cloudCall <> [] \/ modelsOf localCall <> [] ->
   exists kept,
     result = map (withAvailability env)
                (kept ++ modelsOf cloudCall ++ modelsOf localCall)
     /\ kept = filter (fun m => isOllamaProvider (provider m) = false)
                 AVAILABLE_MODELS
     /\ (forall m, m ∈ kept <->
           m ∈ AVAILABLE_MODELS
           /\ provider m <> "ollama-local" /\ provider m <> "ollama-cloud"))
  /\ (modelsOf cloudCall = [] /\ modelsOf localCall = [] ->
      result = map (withAvailability env) AVAILABLE_MODELS).
Proof.
  unfold models_list, modelsOf, cachesOf.
  destruct (fetchOllamaCloudModels env nowCloud st) as [[cloud st1] log1].
  simpl.
  destruct (fetchOllamaLocalModels env nowLocal st1) as [[loc st2] log2].
  simpl. split.
  - intros Hdyn. eexists. split; [|split; [reflexivity|]].
    + unfold staticModelsFor.
      replace ((0 <? length cloud)%nat || (0 <? length loc)%nat) with true;
        [reflexivity|].
      symmetry. apply orb_true_iff.
      destruct Hdyn as [H|H]; [left|right]; by apply length_pos_nonempty.
    + intros m. rewrite list_elem_of_filter.
      unfold isOllamaProvider. rewrite orb_false_iff, !String.eqb_neq. tauto.
  - intros [-> ->]. reflexivity.
Qed.

(** Local discovery succeeded with one model: the five static Ollama
    entries are left out. *)
Lemma models_list_static_superseded_witness :
  map id (modelsOf (models_list Scenario.envLocalOnly 1000 1000 initialCaches))
  = map id (filter (fun m => isOllamaProvider (provider m) = false)
              AVAILABLE_MODELS)
    ++ ["llama3.2:3b"; "functiongemma:latest"].
Proof.
  destruct (models_list_static_superseded Scenario.envLocalOnly 1000 1000 initialCaches)
    as [Hdyn _].
  destruct Hdyn as (kept & -> & -> & _); [right; discriminate|].
  reflexivity.
Defined.

End CatalogProperties.

(* ===================================================================== *)
(** ** Properties of the workspace binding *)
(* ===================================================================== *)

Section BindingProperties.
Import JsString Workspace.








(** C9: when [workspace:set] is called with a thread id and the thread
    store gives no thread for it, the handler returns null and changes
    nothing: no metadata is written, no watcher is started or stopped, no
    setting is touched. (An empty string counts as no thread id: the handler
    then never asks the thread store.) *)
Theorem workspace_set_unknown_thread w threadId t newPath :
  given threadId = Some t -> getThread w t = None ->
  workspace_set w threadId newPath = (None, w).
Proof.
  intros HT Hth. unfold workspace_set. by rewrite HT, Hth.
Qed.

Lemma workspace_set_unknown_thread_witness :
  workspace_set Scenario.world (Some "t9") (Some "/p") = (None, Scenario.world).
Proof.
  apply (workspace_set_unknown_thread Scenario.world (Some "t9") "t9" (Some "/p"));
    reflexivity.
Defined.



End BindingProperties.

(* ===================================================================== *)
(** ** Properties of the file reads *)
(* ===================================================================== *)

Section ReadProperties.
Import JsString Workspace.

(** In a world whose threads keep the persisted layout the lookup of the
    workspace path cannot fail, and a read handler is decided by the bound
    path alone. *)
Lemma readHandler_bound enc w fs threadId filePath :
  readHandler enc w fs threadId filePath
  = match boundPath w threadId with
    | None => Returns (failure "No workspace folder linked")
    | Some workspacePath => catching (readBody enc fs workspacePath filePath)
    end.
Proof.
  unfold readHandler, readHandlerOn, storedThread, lookupWorkspacePath,
    boundPath.
  by destruct (getThread w threadId) as [[[m|]]|].
Qed.

Lemma readHandler_denied enc w fs threadId filePath workspacePath :
  boundPath w threadId = Some workspacePath ->
  withinWorkspace fs workspacePath (fullPathOf workspacePath filePath) = false ->
  readHandler enc w fs threadId filePath
  = Returns (failure "Access denied: path outside workspace").
Proof.
  intros Hb Hw. rewrite readHandler_bound. unfold readBody.
  by rewrite Hb, Hw.
Qed.

Lemma readHandler_within enc w fs threadId filePath workspacePath :
  boundPath w threadId = Some workspacePath ->
  withinWorkspace fs workspacePath (fullPathOf workspacePath filePath) = true ->
  readHandler enc w fs threadId filePath
  = catching
      (st ← stat fs (fullPathOf workspacePath filePath);
       if isDirectory st then Returns (failure "Cannot read directory as file")
       else
         c ← readFile fs (fullPathOf workspacePath filePath);
         Returns (mkReadResult true None (Some (encode enc c))
                    (Some (size st)) (Some (mtime st)))).
Proof.
  intros Hb Hw. rewrite readHandler_bound. unfold readBody.
  by rewrite Hb, Hw.
Qed.

(** The lookup of the workspace path succeeds on every thread of a
    world. *)
Lemma storedThread_lookup w threadId :
  lookupWorkspacePath (storedThread w threadId)
  = Returns (workspacePath (from_option metadataOf (mkMetadata None ∅)
                              (getThread w threadId))).
Proof.
  unfold lookupWorkspacePath, storedThread.
  by destruct (getThread w threadId) as [[[m|]]|].
Qed.

(** A read handler once the lookup of the workspace path has succeeded. *)
Lemma readHandlerOn_found enc thread fs filePath found :
  lookupWorkspacePath thread = Returns found ->
  readHandlerOn enc thread fs filePath
  = match given found with
    | None => Returns (failure "No workspace folder linked")
    | Some workspacePath => catching (readBody enc fs workspacePath filePath)
    end.
Proof. intros H. unfold readHandlerOn. by rewrite H. Qed.

Lemma readHandlerOn_outcomes enc thread fs filePath found :
  lookupWorkspacePath thread = Returns found ->
  (exists r, readHandlerOn enc thread fs filePath = Returns r)
  /\ (given found = None ->
      readHandlerOn enc thread fs filePath
      = Returns (failure "No workspace folder linked"))
  /\ (forall workspacePath,
      given found = Some workspacePath ->
      let fullPath := fullPathOf workspacePath filePath in
      withinWorkspace fs workspacePath fullPath = true ->
      (forall e,
         stat fs fullPath = Throws e ->
         readHandlerOn enc thread fs filePath
         = Returns (failure (errorMessage e)))
      /\ (forall st,
         stat fs fullPath = Returns st -> isDirectory st = true ->
         readHandlerOn enc thread fs filePath
         = Returns (failure "Cannot read directory as file"))
      /\ (forall st e,
         stat fs fullPath = Returns st -> isDirectory st = false ->
         readFile fs fullPath = Throws e ->
         readHandlerOn enc thread fs filePath
         = Returns (failure (errorMessage e)))
      /\ (forall st c,
         stat fs fullPath = Returns st -> isDirectory st = false ->
         readFile fs fullPath = Returns c ->
         readHandlerOn enc thread fs filePath
         = Returns (mkReadResult true None (Some (encode enc c))
                      (Some (size st)) (Some (mtime st))))).
Proof.
  intros Hfound. rewrite (readHandlerOn_found _ _ _ _ _ Hfound).
  split; [|split].
  - destruct (given found); [|by eexists].
    unfold catching. destruct (readBody _ _ _ _); by eexists.
  - by intros ->.
  - intros workspacePath -> fullPath Hw.
    unfold readBody. fold fullPath. rewrite Hw. simpl.
    repeat split.
    + by intros e ->.
    + intros st Hs Hd. rewrite Hs. simpl. by rewrite Hd.
    + intros st e Hs Hd Hr. rewrite Hs. simpl. by rewrite Hd, Hr.
    + intros st c Hs Hd Hr. rewrite Hs. simpl. by rewrite Hd, Hr.
Qed.

(** C6, as stated, fails: the handlers look the workspace path up before
    their [try] block. On a thread whose metadata string is cut short (such
    as '{') the parse throws, and on one whose metadata string is 'null'
    the read of [workspacePath] throws: in both cases both handlers raise
    instead of returning a result. *)
Lemma read_handlers_raise_on_failed_lookup :
  let cutShort :=
    Some (mkStoredThread (Some (TextInvalid "Unexpected end of JSON input"))) in
  let null := Some (mkStoredThread (Some TextNull)) in
  readHandlerOn Utf8 cutShort Scenario.disk "/file.txt"
  = Throws (ErrorObject "Unexpected end of JSON input")
  /\ readHandlerOn Base64 cutShort Scenario.disk "/file.txt"
     = Throws (ErrorObject "Unexpected end of JSON input")
  /\ readHandlerOn Utf8 null Scenario.disk "/file.txt"
     = Throws (ErrorObject
                 "Cannot read properties of null (reading 'workspacePath')")
  /\ readHandlerOn Base64 null Scenario.disk "/file.txt"
     = Throws (ErrorObject
                 "Cannot read properties of null (reading 'workspacePath')")
  /\ ~ (exists r, readHandlerOn Utf8 cutShort Scenario.disk "/file.txt"
                  = Returns r)
  /\ ~ (exists r, readHandlerOn Base64 cutShort Scenario.disk "/file.txt"
                  = Returns r).
Proof.
  repeat split; try reflexivity; intros [r Hr]; discriminate Hr.
Qed.

(** C6 (amended): whenever the lookup of the thread's workspace path (the
    parse of the metadata string and the read of [workspacePath], both
    before the [try] block) does not throw, both read
    handlers return a result value and do not reject. With no workspace
    path found the result is the failure 'No workspace folder linked'. For
    a workspace path and a file path that pass the security check: a
    directory gives the failure 'Cannot read directory as file'; a failing
    [stat] or [readFile] gives a failure with the message of the error;
    otherwise the result is a success carrying the content (the decoded
    text for the text read, the base64 form of the bytes for the binary
    read), the size and the modification time. The lookup does not throw on
    any thread of a world. *)
Theorem read_handlers_structured_results thread fs filePath found :
  lookupWorkspacePath thread = Returns found ->
  (exists r, readHandlerOn Utf8 thread fs filePath = Returns r)
  /\ (exists r, readHandlerOn Base64 thread fs filePath = Returns r)
  /\ (given found = None ->
      readHandlerOn Utf8 thread fs filePath
      = Returns (mkReadResult false (Some "No workspace folder linked")
                   None None None)
      /\ readHandlerOn Base64 thread fs filePath
         = Returns (mkReadResult false (Some "No workspace folder linked")
                      None None None))
  /\ (forall workspacePath,
      given found = Some workspacePath ->
      let fullPath := fullPathOf workspacePath filePath in
      withinWorkspace fs workspacePath fullPath = true ->
      (forall st,
         stat fs fullPath = Returns st -> isDirectory st = true ->
         readHandlerOn Utf8 thread fs filePath
         = Returns (mkReadResult false (Some "Cannot read directory as file")
                      None None None)
         /\ readHandlerOn Base64 thread fs filePath
            = Returns (mkReadResult false (Some "Cannot read directory as file")
                         None None None))
      /\ (forall message,
         stat fs fullPath = Throws (ErrorObject message) ->
         readHandlerOn Utf8 thread fs filePath
         = Returns (mkReadResult false (Some message) None None None)
         /\ readHandlerOn Base64 thread fs filePath
            = Returns (mkReadResult false (Some message) None None None))
      /\ (forall st message,
         stat fs fullPath = Returns st -> isDirectory st = false ->
         readFile fs fullPath = Throws (ErrorObject message) ->
         readHandlerOn Utf8 thread fs filePath
         = Returns (mkReadResult false (Some message) None None None)
         /\ readHandlerOn Base64 thread fs filePath
            = Returns (mkReadResult false (Some message) None None None))
      /\ (forall st c,
         stat fs fullPath = Returns st -> isDirectory st = false ->
         readFile fs fullPath = Returns c ->
         readHandlerOn Utf8 thread fs filePath
         = Returns (mkReadResult true None (Some (content_text c))
                      (Some (size st)) (Some (mtime st)))
         /\ readHandlerOn Base64 thread fs filePath
            = Returns (mkReadResult true None
                         (Some (base64 (bytesOf (content_bytes c))))
                         (Some (size st)) (Some (mtime st)))))
  /\ (forall w threadId,
      workspace_readFile w fs threadId filePath
      = readHandlerOn Utf8 (storedThread w threadId) fs filePath
      /\ workspace_readBinaryFile w fs threadId filePath
         = readHandlerOn Base64 (storedThread w threadId) fs filePath
      /\ lookupWorkspacePath (storedThread w threadId)
         = Returns (workspacePath (from_option metadataOf (mkMetadata None ∅)
                                     (getThread w threadId)))).
Proof.
  intros Hfound.
  destruct (readHandlerOn_outcomes Utf8 thread fs filePath found Hfound)
    as (Hr1 & Hu1 & Hb1).
  destruct (readHandlerOn_outcomes Base64 thread fs filePath found Hfound)
    as (Hr2 & Hu2 & Hb2).
  split; [done|]. split; [done|].
  split; [intros Hn; split; [by apply Hu1|by apply Hu2]|].
  split.
  - intros workspacePath Hb fullPath Hw.
    destruct (Hb1 workspacePath Hb Hw) as (Hs1 & Hd1 & Hf1 & Hok1).
    destruct (Hb2 workspacePath Hb Hw) as (Hs2 & Hd2 & Hf2 & Hok2).
    split; [|split; [|split]].
    + intros st Hs Hd. split; [by apply (Hd1 st)|by apply (Hd2 st)].
    + intros message Hs.
      split; [by apply (Hs1 (ErrorObject message))
             |by apply (Hs2 (ErrorObject message))].
    + intros st message Hs Hd Hr.
      split; [by apply (Hf1 st (ErrorObject message))
             |by apply (Hf2 st (ErrorObject message))].
    + intros st c Hs Hd Hr.
      split; [by apply (Hok1 st c)|by apply (Hok2 st c)].
  - intros w threadId. split; [reflexivity|]. split; [reflexivity|].
    apply storedThread_lookup.
Qed.

(** Thread "t1" is bound to /ws: both handlers read file.txt. *)
Lemma read_handlers_structured_results_witness :
  workspace_readFile Scenario.world Scenario.disk "t1" "/file.txt"
  = Returns (mkReadResult true None (Some "hi") (Some 2%N)
               (Some "2026-01-02T00:00:00.000Z"))
  /\ workspace_readBinaryFile Scenario.world Scenario.disk "t1" "/file.txt"
     = Returns (mkReadResult true None (Some "aGk=") (Some 2%N)
                  (Some "2026-01-02T00:00:00.000Z")).
Proof.
  destruct (read_handlers_structured_results
              (storedThread Scenario.world "t1") Scenario.disk "/file.txt"
              (Some "/ws") eq_refl) as (_ & _ & _ & Hbound & _).
  destruct (Hbound "/ws" eq_refl eq_refl) as (_ & _ & _ & Hok).
  exact (Hok Scenario.fileStats (mkContent "hi" "hi") eq_refl eq_refl eq_refl).
Defined.

(** C10: for a path that does not start with '/', the read handlers give
    the same on [p] and on ['/' + p]: both forms name the same disk
    path. *)
Theorem leading_slash_is_stripped w fs threadId p :
  startsWith p "/" = false ->
  (forall workspacePath,
     fullPathOf workspacePath p = fullPathOf workspacePath ("/" +:+ p))
  /\ workspace_readFile w fs threadId p
     = workspace_readFile w fs threadId ("/" +:+ p)
  /\ workspace_readBinaryFile w fs threadId p
     = workspace_readBinaryFile w fs threadId ("/" +:+ p).
Proof.
  intros Hp.
  assert (Hfull : forall workspacePath,
            fullPathOf workspacePath p = fullPathOf workspacePath ("/" +:+ p)).
  { intros workspacePath. unfold fullPathOf, relativeOf.
    rewrite Hp. simpl. by destruct p. }
  split; [done|].
  unfold workspace_readFile, workspace_readBinaryFile.
  rewrite !readHandler_bound. unfold readBody.
  destruct (boundPath w threadId) as [workspacePath|]; [|done].
  by rewrite <- Hfull.
Qed.

Lemma leading_slash_is_stripped_witness :
  workspace_readFile Scenario.world Scenario.disk "t1" "file.txt"
  = workspace_readFile Scenario.world Scenario.disk "t1" "/file.txt".
Proof.
  apply (leading_slash_is_stripped Scenario.world Scenario.disk "t1" "file.txt").
  reflexivity.
Defined.

(** C1, at the failing input: with the workspace /ws, the virtual path
    /../ws-evil/secret.txt resolves to /ws-evil/secret.txt, which is
    neither /ws nor below it, yet has /ws as a string prefix; both handlers
    read the file. *)
Theorem prefix_check_admits_sibling_directory :
  let workspacePath := "/ws" in
  let filePath := "/../ws-evil/secret.txt" in
  let resolvedPath :=
    Path.resolve (cwd Scenario.disk) [fullPathOf workspacePath filePath] in
  let resolvedWorkspace := Path.resolve (cwd Scenario.disk) [workspacePath] in
  boundPath Scenario.world "t1" = Some workspacePath
  /\ resolvedPath = "/ws-evil/secret.txt"
  /\ resolvedWorkspace = "/ws"
  /\ descendantOrEqual resolvedWorkspace resolvedPath = false
  /\ startsWith resolvedPath resolvedWorkspace = true
  /\ workspace_readFile Scenario.world Scenario.disk "t1" filePath
     = Returns (mkReadResult true None (Some "top secret") (Some 10%N)
                  (Some "2026-01-01T00:00:00.000Z"))
  /\ workspace_readBinaryFile Scenario.world Scenario.disk "t1" filePath
     = Returns (mkReadResult true None (Some "dG9wIHNlY3JldA==") (Some 10%N)
                  (Some "2026-01-01T00:00:00.000Z")).
Proof. repeat split. Qed.

(** What the security check does guarantee: a resolved path that does not
    have the resolved root as a string prefix is refused, whatever the disk
    holds, so nothing is read. *)
Theorem prefix_check_refuses enc w cwd0 rd st1 rf1 st2 rf2 threadId filePath
    workspacePath :
  boundPath w threadId = Some workspacePath ->
  startsWith (Path.resolve cwd0 [fullPathOf workspacePath filePath])
    (Path.resolve cwd0 [workspacePath]) = false ->
  readHandler enc w (mkDisk cwd0 rd st1 rf1) threadId filePath
  = Returns (failure "Access denied: path outside workspace")
  /\ readHandler enc w (mkDisk cwd0 rd st2 rf2) threadId filePath
     = Returns (failure "Access denied: path outside workspace").
Proof.
  intros Hb Hp. split; by eapply readHandler_denied.
Qed.

Lemma prefix_check_refuses_witness :
  workspace_readFile Scenario.world Scenario.disk "t1" "/../etc/passwd"
  = Returns (failure "Access denied: path outside workspace").
Proof.
  apply (prefix_check_refuses Utf8 Scenario.world "/"
           (readdir Scenario.disk) (stat Scenario.disk) (readFile Scenario.disk)
           (stat Scenario.disk) (readFile Scenario.disk)
           "t1" "/../etc/passwd" "/ws"); reflexivity.
Defined.

End ReadProperties.

(* ===================================================================== *)
(** ** Properties of the snapshot *)
(* ===================================================================== *)

Section SnapshotProperties.
Import JsString Workspace.

Lemma visit_skipped relativePath e acc :
  skipped (entryName e) = true -> visit relativePath e acc = Returns acc.
Proof. destruct e as [name st|name listing]; simpl; by intros ->. Qed.

Lemma visit_dir relativePath name entries acc :
  visit relativePath (EDir name (Returns entries)) acc
  = if skipped name then Returns acc
    else visitAll (relPathOf relativePath name) entries
           (acc ++ [mkFileInfo ("/" +:+ relPathOf relativePath name) true None None]).
Proof.
  simpl. destruct (skipped name); [reflexivity|].
  generalize (acc ++ [mkFileInfo ("/" +:+ relPathOf relativePath name) true None None]).
  induction entries as [|e es IH]; intros acc'; simpl; [reflexivity|].
  destruct (visit (relPathOf relativePath name) e acc'); [apply IH|reflexivity].
Qed.

Lemma prune_dir name entries :
  prune (EDir name (Returns entries)) = EDir name (Returns (pruneAll entries)).
Proof.
  reflexivity.
Qed.

Lemma entryName_prune e : entryName (prune e) = entryName e.
Proof. by destruct e as [name st|name [entries|err]]. Qed.

Lemma visitAll_prune_with relativePath entries :
  Forall (fun e => forall rel acc, visit rel (prune e) acc = visit rel e acc)
    entries ->
  forall acc,
    visitAll relativePath (pruneAll entries) acc
    = visitAll relativePath entries acc.
Proof.
  induction 1 as [|e es He _ IH]; intros acc; simpl; [reflexivity|].
  destruct (skipped (entryName e)) eqn:Hs.
  - rewrite (visit_skipped _ _ _ Hs). apply IH.
  - simpl. rewrite He.
    destruct (visit relativePath e acc); [apply IH|reflexivity].
Qed.

Lemma visit_prune e :
  forall relativePath acc,
    visit relativePath (prune e) acc = visit relativePath e acc.
Proof.
  induction e as [name st|name err|name entries IH] using DirEntry_tree_ind;
    intros relativePath acc; try reflexivity.
  rewrite prune_dir, !visit_dir.
  destruct (skipped name); [reflexivity|].
  by apply visitAll_prune_with.
Qed.

Lemma visitAll_prune relativePath entries acc :
  visitAll relativePath (pruneAll entries) acc
  = visitAll relativePath entries acc.
Proof.
  apply visitAll_prune_with, Forall_forall. intros e _. apply visit_prune.
Qed.

(** *** Components of the virtual paths *)

Lemma split_nonempty sep s : split sep s <> [].
Proof.
  destruct s as [|c s]; simpl; [done|].
  destruct (sep c); [done|]. by destruct (split sep s).
Qed.

Lemma split_separator sep a c b :
  sep c = true ->
  split sep (a +:+ String c b) = split sep a ++ split sep b.
Proof.
  intros Hc. induction a as [|d a IH]; simpl.
  - by rewrite Hc.
  - destruct (sep d); [by rewrite IH|].
    rewrite IH. pose proof (split_nonempty sep a) as Hne.
    by destruct (split sep a).
Qed.

Lemma split_plain name :
  plainName name = true -> split Path.isSep name = [name].
Proof.
  unfold plainName, chars. induction name as [|c name IH]; simpl; [done|].
  rewrite andb_true_iff, negb_true_iff. intros [-> Hrest].
  by rewrite (IH Hrest).
Qed.

Lemma components_virtual relativePath name :
  plainName name = true -> skipped name = false ->
  Forall unskipped (components relativePath) ->
  Forall unskipped (components (relPathOf relativePath name))
  /\ Forall unskipped (components ("/" +:+ relPathOf relativePath name)).
Proof.
  intros Hplain Hname Hrel.
  assert (Hr : Forall unskipped (components (relPathOf relativePath name))).
  { unfold relPathOf, components in *.
    destruct (truthy relativePath).
    - change (relativePath +:+ "/" +:+ name)
        with (relativePath +:+ String "/"%char name).
      rewrite split_separator by reflexivity.
      rewrite (split_plain _ Hplain).
      apply Forall_app. split; [done|]. by apply Forall_singleton.
    - rewrite (split_plain _ Hplain). by apply Forall_singleton. }
  split; [done|].
  unfold components in *. simpl. by apply Forall_cons.
Qed.

Lemma visit_clean e :
  wellNamed e = true ->
  forall relativePath acc acc',
    Forall unskipped (components relativePath) ->
    Forall cleanPath acc ->
    visit relativePath e acc = Returns acc' ->
    Forall cleanPath acc'.
Proof.
  induction e as [name st|name err|name entries IH] using DirEntry_tree_ind;
    intros Hwf relativePath acc acc' Hrel Hacc Hvisit.
  - simpl in Hvisit, Hwf. rewrite andb_true_r in Hwf.
    destruct (skipped name) eqn:Hs; [by injection Hvisit as <-|].
    destruct st as [st|err]; [|done]. injection Hvisit as <-.
    apply Forall_app. split; [done|]. apply Forall_singleton.
    by apply components_virtual.
  - simpl in Hvisit. destruct (skipped name); [by injection Hvisit as <-|done].
  - rewrite visit_dir in Hvisit. simpl in Hwf.
    apply andb_true_iff in Hwf as [Hplain Hall].
    destruct (skipped name) eqn:Hs; [by injection Hvisit as <-|].
    destruct (components_virtual relativePath name Hplain Hs Hrel) as [Hrel' Hdir].
    assert (Hacc0 : Forall cleanPath
              (acc ++ [mkFileInfo ("/" +:+ relPathOf relativePath name)
                         true None None])).
    { apply Forall_app. split; [done|]. by apply Forall_singleton. }
    revert Hacc0 Hvisit.
    generalize (acc ++ [mkFileInfo ("/" +:+ relPathOf relativePath name)
                          true None None]).
    clear Hacc acc.
    induction IH as [|e es He _ IHes]; intros acc Hacc Hvisit; simpl in *.
    + by injection Hvisit as <-.
    + apply andb_true_iff in Hall as [Hwe Hwes].
      destruct (visit (relPathOf relativePath name) e acc) as [acc1|] eqn:Hv;
        [|done].
      apply (IHes Hwes acc1); [|done].
      by apply (He Hwe (relPathOf relativePath name) acc acc1).
Qed.

Lemma visitAll_clean entries :
  forallb wellNamed entries = true ->
  forall relativePath acc acc',
    Forall unskipped (components relativePath) ->
    Forall cleanPath acc ->
    visitAll relativePath entries acc = Returns acc' ->
    Forall cleanPath acc'.
Proof.
  induction entries as [|e es IH]; intros Hwf relativePath acc acc' Hrel Hacc Hv;
    simpl in *.
  - by injection Hv as <-.
  - apply andb_true_iff in Hwf as [Hwe Hwes].
    destruct (visit relativePath e acc) as [acc1|] eqn:Hv1; [|done].
    apply (IH Hwes relativePath acc1); [done| |done].
    by apply (visit_clean e Hwe relativePath acc acc1).
Qed.

Lemma unskipped_spec c :
  unskipped c <-> startsWith c "." = false /\ c <> "node_modules".
Proof.
  unfold unskipped, skipped.
  by rewrite orb_false_iff, String.eqb_neq.
Qed.

(** C7: the snapshot skips every entry whose name starts with '.' or is
    'node_modules' without looking at what it holds (no [stat], no
    [readdir] of it), at every depth: the result is that of the tree without
    those entries. Hence, names being free of '/', no component of a returned
    virtual path starts with '.' or is 'node_modules'. *)
Theorem snapshot_skips_hidden_and_noise w fs threadId :
  (forall relativePath name st listing acc,
      startsWith name "." = true \/ name = "node_modules" ->
      visit relativePath (EFile name st) acc = Returns acc
      /\ visit relativePath (EDir name listing) acc = Returns acc)
  /\ workspace_loadFromDisk w (pruneDisk fs) threadId
     = workspace_loadFromDisk w fs threadId
  /\ (forall workspacePath entries result,
        boundPath w threadId = Some workspacePath ->
        readdir fs workspacePath = Returns entries ->
        forallb wellNamed entries = true ->
        workspace_loadFromDisk w fs threadId = Returns result ->
        Forall
          (fun f =>
             Forall (fun c => startsWith c "." = false /\ c <> "node_modules")
               (components (path f)))
          (files result)).
Proof.
  split; [|split].
  - intros relativePath name st listing acc Hname.
    assert (Hs : skipped name = true).
    { unfold skipped. apply orb_true_iff.
      destruct Hname as [H| ->]; [by left|by right]. }
    split; by apply visit_skipped.
  - unfold workspace_loadFromDisk.
    destruct (boundPath w threadId) as [workspacePath|]; [|reflexivity].
    unfold readDir, pruneDisk. simpl.
    destruct (readdir fs workspacePath) as [entries|err]; [|reflexivity].
    simpl. by rewrite visitAll_prune.
  - intros workspacePath entries result Hb Hrd Hwf.
    unfold workspace_loadFromDisk, readDir. rewrite Hb, Hrd. simpl.
    destruct (visitAll "" entries []) as [acc|err] eqn:Hv; intros [= <-]; simpl;
      [|by apply Forall_nil].
    eapply Forall_impl.
    + apply (visitAll_clean entries Hwf "" [] acc); [| by apply Forall_nil |done].
      by apply Forall_singleton.
    + intros f Hf. eapply Forall_impl; [exact Hf|].
      intros c. apply unskipped_spec.
Qed.

(** The workspace /ws of the scenario: .git (whose content cannot be
    read), src/node_modules (which cannot be listed) and src/.env are left
    out. *)
Lemma snapshot_skips_hidden_and_noise_witness :
  (files <$> workspace_loadFromDisk Scenario.world Scenario.disk "t1")
  = Returns
      [ mkFileInfo "/file.txt" false (Some 2%N) (Some "2026-01-02T00:00:00.000Z");
        mkFileInfo "/src" true None None;
        mkFileInfo "/src/a.ts" false (Some 2%N) (Some "2026-01-02T00:00:00.000Z") ]
  /\ Forall
       (fun f =>
          Forall (fun c => startsWith c "." = false /\ c <> "node_modules")
            (components (path f)))
       (from_option files []
          (match workspace_loadFromDisk Scenario.world Scenario.disk "t1" with
           | Returns r => Some r
           | Throws _ => None
           end)).
Proof.
  split; [reflexivity|].
  destruct (snapshot_skips_hidden_and_noise Scenario.world Scenario.disk "t1")
    as (_ & _ & Hclean).
  exact (Hclean "/ws" Scenario.tree _ eq_refl eq_refl eq_refl eq_refl).
Defined.

End SnapshotProperties.

(* ===================================================================== *)
(** ** Properties of discovery, the caches and routing *)
(* ===================================================================== *)

Section RoutingProperties.
Import JsString Catalog Workspace Routing.

Lemma toCloudModel_shaped r m : toCloudModel r = Returns m -> cloudShaped m.
Proof.
  unfold toCloudModel. intros H.
  repeat case_match; simplify_eq. by repeat split.
Qed.

Lemma mapM_toCloudModel_shaped raws ms :
  mapM toCloudModel raws = Returns ms -> Forall cloudShaped ms.
Proof.
  revert ms. induction raws as [|r raws IH]; intros ms H; simpl in H.
  - injection H as <-. by apply Forall_nil.
  - destruct (toCloudModel r) as [m|e] eqn:Hm; [|done].
    destruct (mapM toCloudModel raws) as [ms'|e] eqn:Hms; [|done].
    injection H as <-. apply Forall_cons. split.
    + by apply (toCloudModel_shaped r).
    + by apply IH.
Qed.

Lemma cloudAttempt_success env ms log :
  cloudAttempt env = (Returns (Some ms), log) ->
  exists raws, mapM toCloudModel raws = Returns ms.
Proof.
  unfold cloudAttempt, request, lift, mbind, Net_bind, mret, Net_ret.
  intros H. repeat (case_match; simpl in *; simplify_eq); eauto.
Qed.

Lemma localAttempt_success env ms log :
  localAttempt env = (Returns (Some ms), log) ->
  exists names,
    ms = filter (fun m => supportsToolCalling (id m) = true)
           (map toLocalModel (filter (fun n => endsWith n ":cloud" = false) names)).
Proof.
  unfold localAttempt, request, lift, mbind, Net_bind, mret, Net_ret.
  intros H. repeat (case_match; simpl in *; simplify_eq); eauto.
Qed.

Lemma localModels_shaped names :
  Forall localShaped
    (filter (fun m => supportsToolCalling (id m) = true)
       (map toLocalModel (filter (fun n => endsWith n ":cloud" = false) names))).
Proof.
  apply Forall_forall. intros m Hm.
  apply list_elem_of_filter in Hm as [Htool Hm].
  rewrite list_elem_of_In in Hm.
  apply in_map_iff in Hm as (n & <- & Hn).
  rewrite <- list_elem_of_In in Hn.
  apply list_elem_of_filter in Hn as [Hcloud _].
  by repeat split.
Qed.

(** What a cloud discovery call leaves behind: nothing changed, or the
    returned list stored with the time of the call. *)
Lemma fetchCloud_cases env now st :
  let call := fetchOllamaCloudModels env now st in
  (cachesOf call = st
   /\ (modelsOf call = []
       \/ (modelsOf call = ollamaModelsCache st /\ requestsOf call = [])))
  \/ (cachesOf call
      = mkCaches (modelsOf call) now
          (ollamaLocalModelsCache st) (ollamaLocalModelsCacheTime st)
      /\ Forall cloudShaped (modelsOf call)
      /\ requestsOf call <> []).
Proof.
  unfold fetchOllamaCloudModels, modelsOf, cachesOf, requestsOf.
  destruct (negb (hasKey _)); [left; simpl; auto|].
  destruct (cloudFresh now st); [left; simpl; auto|].
  destruct (cloudAttempt_requests env) as [rest Hlog].
  destruct (cloudAttempt env) as [[[ms|]|e] log] eqn:Ha; simpl in *;
    [right|left; auto|left; auto].
  split; [done|]. split; [|by subst].
  destruct (cloudAttempt_success env ms log Ha) as [raws Hraws].
  by apply (mapM_toCloudModel_shaped raws).
Qed.

Lemma fetchLocal_cases env now st :
  let call := fetchOllamaLocalModels env now st in
  (cachesOf call = st
   /\ (modelsOf call = []
       \/ (modelsOf call = ollamaLocalModelsCache st /\ requestsOf call = [])))
  \/ (cachesOf call
      = mkCaches (ollamaModelsCache st) (ollamaModelsCacheTime st)
          (modelsOf call) now
      /\ Forall localShaped (modelsOf call)
      /\ requestsOf call <> []).
Proof.
  unfold fetchOllamaLocalModels, modelsOf, cachesOf, requestsOf.
  destruct (localFresh now st); [left; simpl; auto|].
  pose proof (localAttempt_requests env) as Hlog.
  destruct (localAttempt env) as [[[ms|]|e] log] eqn:Ha; simpl in *;
    [right|left; auto|left; auto].
  split; [done|]. split; [|by subst].
  destruct (localAttempt_success env ms log Ha) as [names ->].
  apply localModels_shaped.
Qed.

Lemma fetchCloud_wellShaped env now st :
  wellShaped st ->
  wellShaped (cachesOf (fetchOllamaCloudModels env now st))
  /\ Forall cloudShaped (modelsOf (fetchOllamaCloudModels env now st)).
Proof.
  intros [Hc Hl].
  destruct (fetchCloud_cases env now st) as [[-> Hm]|(-> & Hs & _)].
  - split; [done|]. destruct Hm as [->|[-> _]]; [by apply Forall_nil|done].
  - by repeat split.
Qed.

Lemma fetchLocal_wellShaped env now st :
  wellShaped st ->
  wellShaped (cachesOf (fetchOllamaLocalModels env now st))
  /\ Forall localShaped (modelsOf (fetchOllamaLocalModels env now st)).
Proof.
  intros [Hc Hl].
  destruct (fetchLocal_cases env now st) as [[-> Hm]|(-> & Hs & _)].
  - split; [done|]. destruct Hm as [->|[-> _]]; [by apply Forall_nil|done].
  - by repeat split.
Qed.

(** [models:list] unfolded into its two discovery calls. *)
Lemma models_list_unfold env nowCloud nowLocal st :
  let cloudCall := fetchOllamaCloudModels env nowCloud st in
  let localCall := fetchOllamaLocalModels env nowLocal (cachesOf cloudCall) in
  models_list env nowCloud nowLocal st
  = (map (withAvailability env)
       (staticModelsFor (modelsOf cloudCall) (modelsOf localCall)
        ++ modelsOf cloudCall ++ modelsOf localCall),
     cachesOf localCall,
     requestsOf cloudCall ++ requestsOf localCall).
Proof.
  unfold models_list, modelsOf, cachesOf, requestsOf.
  destruct (fetchOllamaCloudModels env nowCloud st) as [[cloud st1] log1].
  simpl.
  by destruct (fetchOllamaLocalModels env nowLocal st1) as [[loc st2] log2].
Qed.

Lemma wellShaped_times st t1 t2 :
  wellShaped st ->
  wellShaped (mkCaches (ollamaModelsCache st) t1 (ollamaLocalModelsCache st) t2).
Proof. by intros [Hc Hl]. Qed.

Lemma wellShaped_reachable st : Reachable st -> wellShaped st.
Proof.
  induction 1 as [|env nowCloud nowLocal st _ IH|env now st _ IH|env now st _ IH].
  - split; by apply Forall_nil.
  - rewrite models_list_unfold. unfold cachesOf at 1. simpl.
    apply fetchLocal_wellShaped. by apply fetchCloud_wellShaped.
  - unfold models_refreshOllama.
    pose proof (fetchCloud_wellShaped env now
                  (mkCaches (ollamaModelsCache st) 0
                     (ollamaLocalModelsCache st) (ollamaLocalModelsCacheTime st))
                  (wellShaped_times st _ _ IH)) as [Hw _].
    by destruct (fetchOllamaCloudModels env now _) as [[models st'] log].
  - unfold models_refreshOllamaLocal.
    pose proof (fetchLocal_wellShaped env now
                  (mkCaches (ollamaModelsCache st) (ollamaModelsCacheTime st)
                     (ollamaLocalModelsCache st) 0)
                  (wellShaped_times st _ _ IH)) as [Hw _].
    by destruct (fetchOllamaLocalModels env now _) as [[models st'] log].
Qed.

(** Cache coherence of the two discovery functions: each leaves the other
    source's cache alone; a call either leaves its own cache as it was or
    stores exactly the list it returns, stamped with the time of the call;
    and a non-empty returned list is always what the cache holds
    afterwards. *)
Theorem discovery_cache_coherence env now st :
  let cloudCall := fetchOllamaCloudModels env now st in
  let localCall := fetchOllamaLocalModels env now st in
  (ollamaLocalModelsCache (cachesOf cloudCall) = ollamaLocalModelsCache st
   /\ ollamaLocalModelsCacheTime (cachesOf cloudCall) = ollamaLocalModelsCacheTime st)
  /\ (ollamaModelsCache (cachesOf localCall) = ollamaModelsCache st
      /\ ollamaModelsCacheTime (cachesOf localCall) = ollamaModelsCacheTime st)
  /\ (cachesOf cloudCall = st
      \/ (ollamaModelsCache (cachesOf cloudCall) = modelsOf cloudCall
          /\ ollamaModelsCacheTime (cachesOf cloudCall) = now))
  /\ (cachesOf localCall = st
      \/ (ollamaLocalModelsCache (cachesOf localCall) = modelsOf localCall
          /\ ollamaLocalModelsCacheTime (cachesOf localCall) = now))
  /\ (modelsOf cloudCall <> [] ->
      ollamaModelsCache (cachesOf cloudCall) = modelsOf cloudCall)
  /\ (modelsOf localCall <> [] ->
      ollamaLocalModelsCache (cachesOf localCall) = modelsOf localCall).
Proof.
  intros cloudCall localCall.
  pose proof (fetchCloud_cases env now st) as Hcloud.
  pose proof (fetchLocal_cases env now st) as Hlocal.
  cbv zeta in Hcloud, Hlocal. fold cloudCall in Hcloud. fold localCall in Hlocal.
  split; [destruct Hcloud as [[-> _]|(-> & _ & _)]; by split|].
  split; [destruct Hlocal as [[-> _]|(-> & _ & _)]; by split|].
  split; [destruct Hcloud as [[Hc _]|(Hc & _ & _)];
            [by left|right; by rewrite Hc]|].
  split; [destruct Hlocal as [[Hl _]|(Hl & _ & _)];
            [by left|right; by rewrite Hl]|].
  split.
  - intros Hne. destruct Hcloud as [[Hc Hm]|(Hc & _ & _)]; rewrite Hc; [|done].
    by destruct Hm as [Hm|[Hm _]].
  - intros Hne. destruct Hlocal as [[Hl Hm]|(Hl & _ & _)]; rewrite Hl; [|done].
    by destruct Hm as [Hm|[Hm _]].
Qed.

Lemma namesModel_member m (l : list ModelConfig) :
  m ∈ l ->
  (0 <? length l)%nat = true /\ existsb (namesModel (id m)) l = true.
Proof.
  intros Hm. split.
  - destruct l; [by apply elem_of_nil in Hm|done].
  - apply existsb_exists. exists m. split; [by apply list_elem_of_In|].
    unfold namesModel. by rewrite String.eqb_refl.
Qed.

(** Every model a [models:list] call obtains from discovery (from the
    network or from a cache) is recognised by [isOllamaCloudModel], resp.
    [isOllamaLocalModel], and so by [isOllamaModel], in the caches the call
    leaves behind. *)
Theorem discovered_models_are_routed env nowCloud nowLocal st :
  let cloudCall := fetchOllamaCloudModels env nowCloud st in
  let localCall := fetchOllamaLocalModels env nowLocal (cachesOf cloudCall) in
  let st' := cachesOf (models_list env nowCloud nowLocal st) in
  (forall m, m ∈ modelsOf cloudCall -> isOllamaCloudModel st' (id m) = true)
  /\ (forall m, m ∈ modelsOf localCall -> isOllamaLocalModel st' (id m) = true)
  /\ (forall m, m ∈ modelsOf cloudCall ++ modelsOf localCall ->
        isOllamaModel st' (id m) = true).
Proof.
  intros cloudCall localCall st'.
  assert (Hst' : st' = cachesOf localCall).
  { unfold st'. by rewrite models_list_unfold. }
  assert (Hcloud : forall m, m ∈ modelsOf cloudCall ->
                     isOllamaCloudModel st' (id m) = true).
  { intros m Hm. unfold isOllamaCloudModel.
    assert (Hcache : ollamaModelsCache st' = ollamaModelsCache (cachesOf cloudCall)).
    { rewrite Hst'.
      destruct (fetchLocal_cases env nowLocal (cachesOf cloudCall))
        as [[Hl _]|(Hl & _ & _)]; fold localCall in Hl; by rewrite Hl. }
    assert (Hheld : ollamaModelsCache (cachesOf cloudCall) = modelsOf cloudCall).
    { destruct (fetchCloud_cases env nowCloud st) as [[Hc Hk]|(Hc & _ & _)];
        fold cloudCall in Hc; try fold cloudCall in Hk.
      - destruct Hk as [Hk|[Hk _]]; rewrite Hk in *;
          [by apply elem_of_nil in Hm|by rewrite Hc].
      - by rewrite Hc. }
    rewrite Hcache, Hheld.
    by destruct (namesModel_member m _ Hm) as [-> ->]. }
  assert (Hlocal : forall m, m ∈ modelsOf localCall ->
                     isOllamaLocalModel st' (id m) = true).
  { intros m Hm. unfold isOllamaLocalModel. rewrite Hst'.
    assert (Hheld : ollamaLocalModelsCache (cachesOf localCall) = modelsOf localCall).
    { destruct (fetchLocal_cases env nowLocal (cachesOf cloudCall))
        as [[Hl Hk]|(Hl & _ & _)]; fold localCall in Hl; try fold localCall in Hk.
      - destruct Hk as [Hk|[Hk _]]; rewrite Hk in *;
          [by apply elem_of_nil in Hm|by rewrite Hl].
      - by rewrite Hl. }
    rewrite Hheld.
    by destruct (namesModel_member m _ Hm) as [-> ->]. }
  split; [done|]. split; [done|].
  intros m Hm. unfold isOllamaModel. apply orb_true_iff.
  apply elem_of_app in Hm as [Hm|Hm]; [left; by apply Hcloud|right; by apply Hlocal].
Qed.

Lemma discovered_models_are_routed_witness :
  isOllamaModel MoreScenarios.afterLocalListing "llama3.2:3b" = true.
Proof.
  destruct (discovered_models_are_routed Scenario.envLocalOnly 1000 1000 initialCaches)
    as (_ & _ & Hall).
  apply (Hall (toLocalModel "llama3.2:3b")).
  apply elem_of_app. right. vm_compute. apply list_elem_of_here.
Defined.

(** In every state the handlers can reach, the cloud cache holds only
    entries of provider 'ollama-cloud' in cloud mode, and the local cache
    only entries of provider 'ollama-local' in local mode whose id passes
    [supportsToolCalling] and does not end in ':cloud'; all are flagged
    available and have [model = id]. *)
Theorem reachable_caches_invariant st :
  Reachable st ->
  (forall m, m ∈ ollamaModelsCache st ->
     provider m = "ollama-cloud" /\ ollamaMode m = Some Cloud
     /\ available m = true /\ model m = id m)
  /\ (forall m, m ∈ ollamaLocalModelsCache st ->
     provider m = "ollama-local" /\ ollamaMode m = Some Local
     /\ available m = true /\ model m = id m
     /\ supportsToolCalling (id m) = true
     /\ endsWith (id m) ":cloud" = false).
Proof.
  intros Hr. destruct (wellShaped_reachable st Hr) as [Hc Hl].
  rewrite Forall_forall in Hc, Hl. split.
  - intros m Hm. exact (Hc m Hm).
  - intros m Hm. destruct (Hl m Hm) as (H1 & H2 & H3 & H4 & _ & H6 & H7).
    by repeat split.
Qed.

Lemma reachable_caches_invariant_witness :
  Forall (fun m => supportsToolCalling (id m) = true)
    (ollamaLocalModelsCache MoreScenarios.afterLocalListing).
Proof.
  apply Forall_forall. intros m Hm.
  apply (reachable_caches_invariant MoreScenarios.afterLocalListing);
    [|exact Hm].
  apply reach_list, reach_start.
Defined.

Lemma static_models_facts :
  Forall
    (fun m => provider m <> "ollama-local" /\ ollamaMode m <> Some Local
              /\ provider m ∈ map provider_id PROVIDERS)
    AVAILABLE_MODELS.
Proof.
  repeat (apply Forall_cons; split;
          [split; [discriminate|split; [discriminate|]];
           vm_compute; repeat (first [apply list_elem_of_here
                                     |apply list_elem_of_further])|]).
  apply Forall_nil. done.
Qed.

Lemma staticModelsFor_subset cloud loc m :
  m ∈ staticModelsFor cloud loc -> m ∈ AVAILABLE_MODELS.
Proof.
  unfold staticModelsFor.
  destruct (_ || _); [|done]. intros Hm.
  by apply list_elem_of_filter in Hm as [_ Hm].
Qed.

(** Whatever discovery gave, the entries of the other providers stay in
    the merged list. *)
Lemma staticModelsFor_nonempty cloud loc : staticModelsFor cloud loc <> [].
Proof. unfold staticModelsFor. destruct (_ || _); vm_compute; discriminate. Qed.

Lemma withAvailability_recomputed env m :
  recomputed
    (match ollamaMode m with
     | Some Local => true
     | _ => hasApiKey env (provider m)
     end) m (withAvailability env m).
Proof. by repeat split. Qed.

(** C8: every [models:list] response is the merged list (the static
    entries kept, then the cloud-discovered, then the locally discovered
    ones), entry by entry and in that order, with nothing changed but the
    availability flag: true for an entry whose mode is local, and for every
    other entry what the credential store answers for the entry's provider.
    The flag the static or cached entry carried plays no part. The response
    is never empty. From a reachable state of the caches, the static
    entries and the cloud-discovered ones are not of local mode, so their
    flag is the credential store's answer (for the cloud-discovered ones the
    answer for 'ollama-cloud'), and the locally discovered entries are of
    local mode, so their flag is true. *)
Theorem models_list_availability env nowCloud nowLocal st :
  let cloudCall := fetchOllamaCloudModels env nowCloud st in
  let localCall := fetchOllamaLocalModels env nowLocal (cachesOf cloudCall) in
  let statics := staticModelsFor (modelsOf cloudCall) (modelsOf localCall) in
  let response := modelsOf (models_list env nowCloud nowLocal st) in
  Forall2
    (fun m r =>
       recomputed
         (match ollamaMode m with
          | Some Local => true
          | _ => hasApiKey env (provider m)
          end) m r)
    (statics ++ modelsOf cloudCall ++ modelsOf localCall) response
  /\ Forall
       (fun r =>
          (ollamaMode r = Some Local -> available r = true)
          /\ (ollamaMode r <> Some Local ->
              (available r = true <-> hasApiKey env (provider r) = true)))
       response
  /\ (forall m flag,
        withAvailability env
          (mkModel (id m) (name m) (provider m) (model m) (description m)
             flag (ollamaMode m))
        = withAvailability env m)
  /\ response <> []
  /\ (Reachable st ->
      exists fromStatic fromCloud fromLocal,
        response = fromStatic ++ fromCloud ++ fromLocal
        /\ Forall2
             (fun m r =>
                ollamaMode m <> Some Local
                /\ recomputed (hasApiKey env (provider m)) m r)
             statics fromStatic
        /\ Forall2
             (fun m r =>
                ollamaMode m = Some Cloud
                /\ recomputed (hasApiKey env "ollama-cloud") m r)
             (modelsOf cloudCall) fromCloud
        /\ Forall2
             (fun m r => ollamaMode m = Some Local /\ recomputed true m r)
             (modelsOf localCall) fromLocal).
Proof.
  intros cloudCall localCall statics response.
  assert (Hresp : response
                  = map (withAvailability env)
                      (statics ++ modelsOf cloudCall ++ modelsOf localCall)).
  { unfold response. by rewrite models_list_unfold. }
  rewrite Hresp. clear Hresp.
  split; [|split; [|split; [|split]]].
  - apply Forall2_fmap_r, Forall_Forall2_diag, Forall_forall.
    intros m _. apply withAvailability_recomputed.
  - rewrite Forall_map. apply Forall_forall. intros m _.
    unfold withAvailability; simpl.
    destruct (ollamaMode m) as [[|]|]; split; (congruence || by intros _).
  - reflexivity.
  - intros Hnil. apply map_eq_nil, app_eq_nil in Hnil as [Hnil _].
    by apply staticModelsFor_nonempty in Hnil.
  - intros Hr. pose proof (wellShaped_reachable st Hr) as Hw.
    destruct (fetchCloud_wellShaped env nowCloud st Hw) as [Hw1 Hcloud].
    destruct (fetchLocal_wellShaped env nowLocal _ Hw1) as [_ Hlocal].
    fold cloudCall in Hcloud. fold cloudCall localCall in Hlocal.
    exists (map (withAvailability env) statics),
      (map (withAvailability env) (modelsOf cloudCall)),
      (map (withAvailability env) (modelsOf localCall)).
    split; [by rewrite !map_app|].
    split; [|split];
      apply Forall2_fmap_r, Forall_Forall2_diag, Forall_forall; intros m Hm.
    + apply staticModelsFor_subset in Hm.
      pose proof static_models_facts as Hs. rewrite Forall_forall in Hs.
      destruct (Hs m Hm) as (_ & Hmode & _). split; [done|].
      pose proof (withAvailability_recomputed env m) as Hrec.
      by destruct (ollamaMode m) as [[|]|].
    + rewrite Forall_forall in Hcloud.
      destruct (Hcloud m Hm) as (Hp & Hmode & _). split; [done|].
      pose proof (withAvailability_recomputed env m) as Hrec.
      by rewrite Hmode, Hp in Hrec.
    + rewrite Forall_forall in Hlocal.
      destruct (Hlocal m Hm) as (_ & Hmode & _). split; [done|].
      pose proof (withAvailability_recomputed env m) as Hrec.
      by rewrite Hmode in Hrec.
Qed.

(** From the initial caches, with no credential stored and a local server
    answering: the static entries of the other providers come first and are
    not available, cloud discovery gives nothing, and the locally discovered
    entries are available. *)
Lemma models_list_availability_witness :
  exists fromStatic fromCloud fromLocal,
    modelsOf (models_list Scenario.envLocalOnly 1000 1000 initialCaches)
    = fromStatic ++ fromCloud ++ fromLocal
    /\ Forall2
         (fun m r => ollamaMode m <> Some Local /\ recomputed false m r)
         (filter (fun m => isOllamaProvider (provider m) = false)
            AVAILABLE_MODELS)
         fromStatic
    /\ Forall2
         (fun m r => ollamaMode m = Some Cloud /\ recomputed false m r)
         [] fromCloud
    /\ Forall2
         (fun m r => ollamaMode m = Some Local /\ recomputed true m r)
         (modelsOf (fetchOllamaLocalModels Scenario.envLocalOnly 1000
                      initialCaches))
         fromLocal.
Proof.
  destruct (models_list_availability Scenario.envLocalOnly 1000 1000
              initialCaches) as (_ & _ & _ & _ & Hreach).
  exact (Hreach reach_start).
Defined.

(** In a [models:list] response from a reachable state, an entry is of
    provider 'ollama-local' exactly when its mode is local, and every such
    entry passes [supportsToolCalling] and is available, whatever the
    credential store holds; and every entry's provider is one that
    [models:listProviders] lists. *)
Theorem models_list_entries_consistent env nowCloud nowLocal st :
  Reachable st ->
  Forall
    (fun m =>
       (provider m = "ollama-local" <-> ollamaMode m = Some Local)
       /\ (provider m = "ollama-local" ->
           supportsToolCalling (id m) = true /\ available m = true)
       /\ provider m ∈ map (fun p => provider_id p.1) (models_listProviders env))
    (modelsOf (models_list env nowCloud nowLocal st)).
Proof.
  intros Hr. pose proof (wellShaped_reachable st Hr) as Hw.
  assert (Hprov : map (fun p => provider_id p.1) (models_listProviders env)
                  = map provider_id PROVIDERS) by reflexivity.
  rewrite Hprov.
  rewrite models_list_unfold. unfold modelsOf at 1. cbn [fst].
  destruct (fetchCloud_wellShaped env nowCloud st Hw) as [Hw1 Hcloud].
  destruct (fetchLocal_wellShaped env nowLocal _ Hw1) as [_ Hlocal].
  rewrite Forall_map. rewrite !Forall_app.
  split; [|split].
  - apply Forall_forall. intros m Hm.
    apply staticModelsFor_subset in Hm.
    pose proof static_models_facts as Hs. rewrite Forall_forall in Hs.
    destruct (Hs m Hm) as (Hp & Hmode & Hin).
    unfold withAvailability; simpl. by repeat split.
  - eapply Forall_impl; [exact Hcloud|].
    intros m (Hp & Hmode & _). unfold withAvailability; simpl.
    rewrite Hp, Hmode.
    split; [split; discriminate|]. split; [discriminate|].
    vm_compute. repeat (first [apply list_elem_of_here|apply list_elem_of_further]).
  - eapply Forall_impl; [exact Hlocal|].
    intros m (Hp & Hmode & _ & _ & _ & Htool & _). unfold withAvailability; simpl.
    rewrite Hp, Hmode.
    split; [done|]. split; [done|].
    vm_compute. repeat (first [apply list_elem_of_here|apply list_elem_of_further]).
Qed.

Lemma models_list_entries_consistent_witness :
  Forall (fun m => provider m = "ollama-local" -> supportsToolCalling (id m) = true)
    (modelsOf (models_list Scenario.envOffline 2000 2000 MoreScenarios.afterLocalListing)).
Proof.
  eapply Forall_impl.
  - apply (models_list_entries_consistent Scenario.envOffline 2000 2000
             MoreScenarios.afterLocalListing).
    apply reach_list, reach_start.
  - intros m (_ & Htool & _) Hp. by apply Htool.
Defined.

(** With a stored cloud key and both caches fresh, [models:list] makes
    no request and leaves the caches as they are; it answers with the
    static models of the other providers followed by the two cached lists,
    availability recomputed. *)
Theorem models_list_fresh_caches_no_request env nowCloud nowLocal st :
  hasKey (getApiKey env "ollama-cloud") = true ->
  cloudFresh nowCloud st = true ->
  localFresh nowLocal st = true ->
  models_list env nowCloud nowLocal st
  = (map (withAvailability env)
       (filter (fun m => isOllamaProvider (provider m) = false) AVAILABLE_MODELS
        ++ ollamaModelsCache st ++ ollamaLocalModelsCache st),
     st, []).
Proof.
  intros Hk Hc Hl. unfold models_list.
  rewrite (fetchCloud_fresh env nowCloud st Hk Hc).
  rewrite (fetchLocal_fresh env nowLocal st Hl).
  apply cloudFresh_spec in Hc as [_ Hc].
  unfold staticModelsFor.
  apply length_pos_nonempty in Hc. by rewrite Hc.
Qed.

Lemma models_list_fresh_caches_no_request_witness :
  requestsOf (models_list Scenario.envCloudKey 1000 1000 MoreScenarios.bothCached)
  = []
  /\ cachesOf (models_list Scenario.envCloudKey 1000 1000 MoreScenarios.bothCached)
     = MoreScenarios.bothCached.
Proof.
  rewrite (models_list_fresh_caches_no_request Scenario.envCloudKey 1000 1000
             MoreScenarios.bothCached eq_refl eq_refl eq_refl).
  split; reflexivity.
Defined.

Lemma cloudAttempt_requests_exact env :
  (cloudAttempt env).2 = ["https://ollama.com/v1/models"]
  \/ (cloudAttempt env).2
     = ["https://ollama.com/v1/models"; "https://ollama.com/api/tags"].
Proof.
  unfold cloudAttempt, request, lift, mbind, Net_bind, mret, Net_ret.
  repeat (case_match; simpl in *; simplify_eq); auto.
Qed.

Lemma fetchCloud_requests env now st :
  requestsOf (fetchOllamaCloudModels env now st) = []
  \/ (hasKey (getApiKey env "ollama-cloud") = true
      /\ (requestsOf (fetchOllamaCloudModels env now st)
          = ["https://ollama.com/v1/models"]
          \/ requestsOf (fetchOllamaCloudModels env now st)
             = ["https://ollama.com/v1/models"; "https://ollama.com/api/tags"])).
Proof.
  unfold fetchOllamaCloudModels, requestsOf.
  destruct (hasKey _); simpl; [|by left].
  destruct (cloudFresh now st); [by left|]. right. split; [done|].
  destruct (cloudAttempt_requests_exact env) as [Hlog|Hlog];
    destruct (cloudAttempt env) as [[[ms|]|e] log]; simpl in *; subst; auto.
Qed.

Lemma fetchLocal_requests env now st :
  requestsOf (fetchOllamaLocalModels env now st) = []
  \/ requestsOf (fetchOllamaLocalModels env now st)
     = [getOllamaLocalEndpoint env +:+ "/api/tags"].
Proof.
  destruct (localFresh now st) eqn:Hf.
  - left. by rewrite (fetchLocal_fresh env now st Hf).
  - right. by apply fetchLocal_stale.
Qed.

(** One [models:list] call makes at most three requests, each to one of
    the three discovery URLs, the cloud ones first; without a stored cloud
    key it never contacts the cloud. *)
Theorem models_list_request_bound env nowCloud nowLocal st :
  (length (requestsOf (models_list env nowCloud nowLocal st)) <= 3)%nat
  /\ Forall (fun url => url ∈ discoveryUrls env)
       (requestsOf (models_list env nowCloud nowLocal st))
  /\ (hasKey (getApiKey env "ollama-cloud") = false ->
      Forall (fun url => url = getOllamaLocalEndpoint env +:+ "/api/tags")
        (requestsOf (models_list env nowCloud nowLocal st))).
Proof.
  assert (Hreq : requestsOf (models_list env nowCloud nowLocal st)
                 = requestsOf (fetchOllamaCloudModels env nowCloud st)
                   ++ requestsOf
                        (fetchOllamaLocalModels env nowLocal
                           (cachesOf (fetchOllamaCloudModels env nowCloud st))))
    by (by rewrite models_list_unfold).
  rewrite Hreq. clear Hreq. unfold discoveryUrls.
  destruct (fetchCloud_requests env nowCloud st) as [H1|[Hk [H1|H1]]];
    destruct (fetchLocal_requests env nowLocal
                (cachesOf (fetchOllamaCloudModels env nowCloud st))) as [H2|H2];
    rewrite H1, H2; simpl;
    (split; [lia|]);
    (split; [|first [intros Hno; congruence|intros _]]);
    repeat (apply Forall_cons; split);
    try (by apply Forall_nil);
    try done;
    repeat (first [apply list_elem_of_here|apply list_elem_of_further]).
Qed.

Lemma models_list_request_bound_witness :
  requestsOf (models_list Scenario.envLocalOnly 1000 1000 initialCaches)
  = ["http://localhost:11434/api/tags"].
Proof.
  destruct (models_list_request_bound Scenario.envLocalOnly 1000 1000 initialCaches)
    as (_ & _ & Hlocal).
  specialize (Hlocal eq_refl).
  destruct (requestsOf (models_list Scenario.envLocalOnly 1000 1000 initialCaches))
    as [|url [|url' rest]] eqn:Hreq; try discriminate Hreq.
  apply Forall_cons in Hlocal as [-> _]. reflexivity.
Defined.

(** A forced refresh of the cloud source: with a stored key, and a clock
    reading of at least the time-to-live, the primary endpoint is requested
    whatever the cache held; without a key nothing is requested, the count is
    0, and the cached list stays while its timestamp is reset. *)
Theorem refresh_cloud_behaviour env now st :
  (hasKey (getApiKey env "ollama-cloud") = true -> 300000 <= now ->
   exists rest,
     requestsOf (models_refreshOllama env now st)
     = "https://ollama.com/v1/models" :: rest)
  /\ (hasKey (getApiKey env "ollama-cloud") = false ->
      models_refreshOllama env now st
      = (0%nat,
         mkCaches (ollamaModelsCache st) 0
           (ollamaLocalModelsCache st) (ollamaLocalModelsCacheTime st),
         [])).
Proof.
  unfold models_refreshOllama.
  set (st0 := mkCaches _ 0 _ _). split.
  - intros Hk Hnow.
    assert (Hstale : cloudFresh now st0 = false).
    { apply not_true_is_false. rewrite cloudFresh_spec. simpl. lia. }
    destruct (fetchCloud_stale env now st0 Hk Hstale) as [rest Hreq].
    exists rest.
    by destruct (fetchOllamaCloudModels env now st0) as [[models st'] log].
  - intros Hk. by rewrite (fetchCloud_no_key env now st0 Hk).
Qed.

Lemma refresh_cloud_behaviour_witness :
  models_refreshOllama Scenario.envOffline 1700000000000 Scenario.cloudCached
  = (0%nat, mkCaches [Scenario.cachedCloudModel] 0 [] 0, []).
Proof.
  destruct (refresh_cloud_behaviour Scenario.envOffline 1700000000000
              Scenario.cloudCached) as [_ Hno].
  exact (Hno eq_refl).
Defined.

(** While both caches are empty, [isOllamaModel] decides by the id
    patterns alone; of the static table it then claims the five Ollama Cloud
    entries and, besides them, Google's 'gemini-3-pro-preview'. *)
Theorem static_models_routing_with_empty_caches st :
  ollamaModelsCache st = [] -> ollamaLocalModelsCache st = [] ->
  (forall modelId, isOllamaModel st modelId = matchesCloudPattern modelId)
  /\ map (fun m => (id m, provider m))
       (filter (fun m => isOllamaModel st (id m) = true) AVAILABLE_MODELS)
     = [ ("gemini-3-pro-preview", "google");
         ("gpt-oss:120b-cloud", "ollama-cloud");
         ("gpt-oss:20b-cloud", "ollama-cloud");
         ("qwen3-coder:480b-cloud", "ollama-cloud");
         ("deepseek-v3.1:671b-cloud", "ollama-cloud");
         ("qwen3-vl:235b-cloud", "ollama-cloud") ].
Proof.
  intros Hc Hl.
  assert (Hpat : forall modelId,
            isOllamaModel st modelId = matchesCloudPattern modelId).
  { intros modelId. unfold isOllamaModel, isOllamaCloudModel, isOllamaLocalModel.
    rewrite Hc, Hl. simpl. apply orb_false_r. }
  split; [done|].
  assert (Hfilter :
            filter (fun m => isOllamaModel st (id m) = true) AVAILABLE_MODELS
            = filter (fun m => matchesCloudPattern (id m) = true) AVAILABLE_MODELS).
  { apply list_filter_iff. intros m. by rewrite Hpat. }
  rewrite Hfilter. reflexivity.
Qed.

Lemma static_models_routing_with_empty_caches_witness :
  isOllamaModel initialCaches "gemini-3-pro-preview" = true
  /\ isOllamaModel initialCaches "gemini-2.5-pro" = false.
Proof.
  destruct (static_models_routing_with_empty_caches initialCaches eq_refl eq_refl)
    as [Hpat _].
  rewrite !Hpat. split; reflexivity.
Defined.

(** *** Failures during discovery *)

Lemma mapM_throws {A B : Type} (f : A -> Try B) (l : list A) x e :
  x ∈ l -> f x = Throws e -> exists e', mapM f l = Throws e'.
Proof.
  intros Hx Hf. induction l as [|y l IH]; [by apply elem_of_nil in Hx|].
  simpl. apply elem_of_cons in Hx as [<-|Hx].
  - rewrite Hf. by eexists.
  - destruct (f y); [|by eexists].
    destruct (IH Hx) as [e' ->]. by eexists.
Qed.

(** Discovery is all or nothing: one listed entry that carries no id, name
    or model (cloud), or no name (local), makes the whole call give the empty
    list and leave the caches as they were, although the request was made
    and answered. *)
Theorem discovery_aborts_on_malformed_entry env now st body raws r :
  r ∈ raws ->
  (hasKey (getApiKey env "ollama-cloud") = true ->
   cloudFresh now st = false ->
   fetch env "https://ollama.com/v1/models"
   = Returns (mkResponse true (Returns body)) ->
   cloudModelsOf body = Returns raws ->
   raw_id r = None -> raw_name r = None -> raw_model r = None ->
   fetchOllamaCloudModels env now st = ([], st, ["https://ollama.com/v1/models"]))
  /\ (localFresh now st = false ->
      fetch env (getOllamaLocalEndpoint env +:+ "/api/tags")
      = Returns (mkResponse true (Returns body)) ->
      localModelsOf body = Returns raws ->
      raw_name r = None ->
      fetchOllamaLocalModels env now st
      = ([], st, [getOllamaLocalEndpoint env +:+ "/api/tags"])).
Proof.
  intros Hr. split.
  - intros Hk Hstale Hfetch Hbody Hid Hname Hmodel.
    assert (Hthrow : exists e, toCloudModel r = Throws e).
    { unfold toCloudModel. rewrite Hid, Hname, Hmodel. simpl. by eexists. }
    destruct Hthrow as [e He].
    destruct (mapM_throws toCloudModel raws r e Hr He) as [e' Hm].
    unfold fetchOllamaCloudModels. rewrite Hk, Hstale. simpl.
    unfold cloudAttempt, request, lift, mbind, Net_bind, mret, Net_ret.
    rewrite Hfetch. simpl. by rewrite Hbody, Hm.
  - intros Hstale Hfetch Hbody Hname.
    assert (He : nameOf r = Throws
                   (ErrorObject
                      "Cannot read properties of undefined (reading 'endsWith')")).
    { unfold nameOf. by rewrite Hname. }
    destruct (mapM_throws nameOf raws r _ Hr He) as [e' Hm].
    unfold fetchOllamaLocalModels. rewrite Hstale.
    unfold localAttempt, request, lift, mbind, Net_bind, mret, Net_ret.
    rewrite Hfetch. simpl. by rewrite Hbody, Hm.
Qed.

Lemma discovery_aborts_on_malformed_entry_witness :
  fetchOllamaLocalModels MoreScenarios.envMalformed 1000 initialCaches
  = ([], initialCaches, ["http://localhost:11434/api/tags"]).
Proof.
  destruct (discovery_aborts_on_malformed_entry MoreScenarios.envMalformed 1000
              initialCaches MoreScenarios.malformedBody
              [Scenario.raw "llama3.2:3b"; mkRaw None None None None]
              (mkRaw None None None None)) as [_ Hlocal].
  - apply list_elem_of_further, list_elem_of_here.
  - exact (Hlocal eq_refl eq_refl eq_refl eq_refl).
Defined.

(** The fallback of cloud discovery. With a stored key and no fresh
    cache: a primary endpoint that answers with success is the only one
    asked; one that answers without success is followed by a request to
    '/api/tags', whose answer is then used; but a primary request that fails
    outright (network error) ends the call with the empty list, with no
    second request and the caches unchanged. *)
Theorem cloud_discovery_fallback env now st :
  hasKey (getApiKey env "ollama-cloud") = true ->
  cloudFresh now st = false ->
  (forall e,
     fetch env "https://ollama.com/v1/models" = Throws e ->
     fetchOllamaCloudModels env now st = ([], st, ["https://ollama.com/v1/models"]))
  /\ (forall r1,
     fetch env "https://ollama.com/v1/models" = Returns r1 -> ok r1 = true ->
     requestsOf (fetchOllamaCloudModels env now st)
     = ["https://ollama.com/v1/models"])
  /\ (forall r1,
     fetch env "https://ollama.com/v1/models" = Returns r1 -> ok r1 = false ->
     requestsOf (fetchOllamaCloudModels env now st)
     = ["https://ollama.com/v1/models"; "https://ollama.com/api/tags"]
     /\ (forall body raws models,
           fetch env "https://ollama.com/api/tags"
           = Returns (mkResponse true (Returns body)) ->
           cloudModelsOf body = Returns raws ->
           mapM toCloudModel raws = Returns models ->
           modelsOf (fetchOllamaCloudModels env now st) = models
           /\ ollamaModelsCache (cachesOf (fetchOllamaCloudModels env now st))
              = models
           /\ ollamaModelsCacheTime (cachesOf (fetchOllamaCloudModels env now st))
              = now)).
Proof.
  intros Hk Hstale.
  unfold fetchOllamaCloudModels. rewrite Hk, Hstale. simpl.
  unfold cloudAttempt, request, lift, mbind, Net_bind, mret, Net_ret,
    requestsOf, modelsOf, cachesOf.
  split; [|split].
  - by intros e ->.
  - intros r1 -> Hok. rewrite Hok.
    repeat (case_match; simpl in *; simplify_eq); reflexivity.
  - intros r1 -> Hok. rewrite Hok. split.
    + repeat (case_match; simpl in *; simplify_eq); reflexivity.
    + intros body raws models Hf Hb Hm. rewrite Hf. simpl.
      by rewrite Hb, Hm.
Qed.

Lemma cloud_discovery_fallback_witness :
  fetchOllamaCloudModels Scenario.envCloudKey 1000 initialCaches
  = ([], initialCaches, ["https://ollama.com/v1/models"]).
Proof.
  destruct (cloud_discovery_fallback Scenario.envCloudKey 1000 initialCaches
              eq_refl eq_refl) as [Hthrow _].
  exact (Hthrow (ErrorObject "fetch failed") eq_refl).
Defined.

End RoutingProperties.

(* ===================================================================== *)
(** ** Properties of names: the tool-calling test and display names *)
(* ===================================================================== *)

Section NamingProperties.
Import JsString Catalog.

Lemma lowerChar_upperChar c : lowerChar (upperChar c) = lowerChar c.
Proof. destruct c as [[] [] [] [] [] [] [] []]; reflexivity. Qed.

Lemma lowerChar_lowerChar c : lowerChar (lowerChar c) = lowerChar c.
Proof. destruct c as [[] [] [] [] [] [] [] []]; reflexivity. Qed.

Lemma isColon_upperChar c : isColon (upperChar c) = isColon c.
Proof. destruct c as [[] [] [] [] [] [] [] []]; reflexivity. Qed.

Lemma isColon_lowerChar c : isColon (lowerChar c) = isColon c.
Proof. destruct c as [[] [] [] [] [] [] [] []]; reflexivity. Qed.

Lemma isNameSeparator_upperChar c :
  isNameSeparator (upperChar c) = isNameSeparator c.
Proof. destruct c as [[] [] [] [] [] [] [] []]; reflexivity. Qed.

Lemma split_first_nonempty sep s : exists w ws, split sep s = w :: ws.
Proof.
  destruct s as [|c s]; simpl; [by eexists _, _|].
  destruct (sep c); [by eexists _, _|].
  destruct (split sep s); by eexists _, _.
Qed.

Lemma split_mapChars f sep s :
  (forall c, sep (f c) = sep c) ->
  split sep (mapChars f s) = map (mapChars f) (split sep s).
Proof.
  intros Hf. induction s as [|c s IH]; simpl; [reflexivity|].
  rewrite Hf, IH. destruct (sep c); [reflexivity|].
  by destruct (split sep s).
Qed.

Lemma mapChars_compose f g h s :
  (forall c, f (g c) = h c) -> mapChars f (mapChars g s) = mapChars h s.
Proof.
  intros Hfg. induction s as [|c s IH]; simpl; [reflexivity|].
  by rewrite Hfg, IH.
Qed.

Lemma baseNameOf_mapChars f n :
  (forall c, isColon (f c) = isColon c) ->
  (forall c, lowerChar (f c) = lowerChar c) ->
  baseNameOf (mapChars f n) = baseNameOf n.
Proof.
  intros Hcolon Hlower. unfold baseNameOf, toLowerCase.
  rewrite (split_mapChars f isColon n Hcolon).
  destruct (split_first_nonempty isColon n) as (w & ws & ->). simpl.
  by apply mapChars_compose.
Qed.

Lemma baseNameOf_tag n tag : baseNameOf (n +:+ ":" +:+ tag) = baseNameOf n.
Proof.
  unfold baseNameOf.
  change (n +:+ ":" +:+ tag) with (n +:+ String ":"%char tag).
  rewrite (split_separator isColon n ":"%char tag) by reflexivity.
  by destruct (split_first_nonempty isColon n) as (w & ws & ->).
Qed.

Lemma supportsToolCalling_baseName n n' :
  baseNameOf n = baseNameOf n' -> supportsToolCalling n = supportsToolCalling n'.
Proof. intros H. unfold supportsToolCalling. by rewrite H. Qed.

(** [supportsToolCalling] does not depend on the case of the letters of
    the name, nor on a tag appended after a colon. *)
Theorem supportsToolCalling_case_and_tag n tag :
  supportsToolCalling (toUpperCase n) = supportsToolCalling n
  /\ supportsToolCalling (toLowerCase n) = supportsToolCalling n
  /\ supportsToolCalling (n +:+ ":" +:+ tag) = supportsToolCalling n.
Proof.
  split; [|split]; apply supportsToolCalling_baseName.
  - apply baseNameOf_mapChars; [apply isColon_upperChar|apply lowerChar_upperChar].
  - apply baseNameOf_mapChars; [apply isColon_lowerChar|apply lowerChar_lowerChar].
  - apply baseNameOf_tag.
Qed.

Lemma startsWith_cons s c p :
  startsWith s (String c p) = true ->
  exists s', s = String c s' /\ startsWith s' p = true.
Proof.
  destruct s as [|d s']; simpl; [done|].
  destruct (Ascii.eqb c d) eqn:E; [|done].
  apply Ascii.eqb_eq in E as ->. eauto.
Qed.

(** No model of the gemma family passes [supportsToolCalling]: a name
    whose lowercased base starts with 'gemma' is refused, whatever follows
    (only the base 'functiongemma' is accepted). *)
Theorem supportsToolCalling_refuses_gemma n :
  startsWith (baseNameOf n) "gemma" = true -> supportsToolCalling n = false.
Proof.
  unfold supportsToolCalling. generalize (baseNameOf n). intros b H.
  apply startsWith_cons in H as (b1 & -> & H).
  apply startsWith_cons in H as (b2 & -> & H).
  apply startsWith_cons in H as (b3 & -> & H).
  apply startsWith_cons in H as (b4 & -> & H).
  apply startsWith_cons in H as (b5 & -> & _).
  reflexivity.
Qed.

Lemma supportsToolCalling_refuses_gemma_witness :
  supportsToolCalling "Gemma3:27b" = false.
Proof. apply (supportsToolCalling_refuses_gemma "Gemma3:27b"). reflexivity. Defined.

(** *** Display names *)

Lemma chars_app a b : chars (a +:+ b) = chars a ++ chars b.
Proof.
  unfold chars. induction a as [|c a IH]; simpl; [reflexivity|]. by rewrite IH.
Qed.

Lemma of_chars_app a b : of_chars (a ++ b) = of_chars a +:+ of_chars b.
Proof.
  unfold of_chars. induction a as [|c a IH]; simpl; [reflexivity|]. by rewrite IH.
Qed.

Lemma of_chars_chars s : of_chars (chars s) = s.
Proof. apply string_of_list_ascii_of_string. Qed.

Lemma chars_of_chars l : chars (of_chars l) = l.
Proof. apply list_ascii_of_string_of_list_ascii. Qed.

Lemma split_pieces_clean sep s :
  Forall (fun w => Forall (fun c => sep c = false) (chars w)) (split sep s).
Proof.
  induction s as [|c s IH]; simpl.
  - apply Forall_cons. split; [apply Forall_nil; done|apply Forall_nil; done].
  - destruct (sep c) eqn:Hc.
    + apply Forall_cons. split; [apply Forall_nil; done|done].
    + destruct (split sep s) as [|w ws]; simpl.
      * apply Forall_cons. split; [|done].
        apply Forall_cons. split; [done|apply Forall_nil; done].
      * apply Forall_cons in IH as [Hw Hws].
        apply Forall_cons. split; [|done].
        unfold chars. simpl. apply Forall_cons. by split.
Qed.

Lemma capitalize_clean w :
  Forall (fun c => isNameSeparator c = false) (chars w) ->
  Forall (fun c => isNameSeparator c = false) (chars (capitalize w)).
Proof.
  destruct w as [|c w]; [done|]. unfold chars. simpl.
  intros H. apply Forall_cons in H as [Hc Hw].
  apply Forall_cons. split; [by rewrite isNameSeparator_upperChar|done].
Qed.

Lemma join_clean (l : list string) :
  Forall (fun w => Forall (fun c => isNameSeparator c = false) (chars w)) l ->
  Forall (fun c => isNameSeparator c = false) (chars (join " " l)).
Proof.
  induction l as [|w [|w' l] IH]; intros H.
  - apply Forall_nil. done.
  - simpl. by apply Forall_cons in H as [Hw _].
  - apply Forall_cons in H as [Hw Hrest].
    change (join " " (w :: w' :: l)) with (w +:+ " " +:+ join " " (w' :: l)).
    rewrite !chars_app. apply Forall_app. split; [done|].
    apply Forall_app. split; [|by apply IH].
    apply Forall_cons. split; [reflexivity|apply Forall_nil; done].
Qed.

Lemma reverse_app a b : reverse (a +:+ b) = reverse b +:+ reverse a.
Proof.
  unfold reverse. by rewrite chars_app, rev_app_distr, of_chars_app.
Qed.

Lemma startsWith_app s rest : startsWith (s +:+ rest) s = true.
Proof.
  induction s as [|c s IH]; simpl; [by destruct rest|].
  by rewrite Ascii.eqb_refl.
Qed.

Lemma stripCloudSuffix_appended n :
  stripCloudSuffix (n +:+ ":cloud") = n.
Proof.
  unfold stripCloudSuffix, endsWith.
  rewrite reverse_app, startsWith_app.
  unfold dropEnd. rewrite chars_app, rev_app_distr. simpl.
  by rewrite drop_0, rev_involutive, of_chars_chars.
Qed.

(** The display name of a cloud model never shows a '-', '_' or ':' of the
    raw name, and the suffix ':cloud' does not show: a name and the same
    name with ':cloud' appended are displayed alike, unless the name itself
    already ends in ':cloud'. *)
Theorem formatModelName_hides_separators name :
  Forall (fun c => c <> "-"%char /\ c <> "_"%char /\ c <> ":"%char)
    (chars (formatModelName name))
  /\ (endsWith name ":cloud" = false ->
      formatModelName (name +:+ ":cloud") = formatModelName name).
Proof.
  split.
  - eapply Forall_impl.
    + unfold formatModelName. apply join_clean.
      rewrite Forall_map.
      eapply Forall_impl; [apply (split_pieces_clean isNameSeparator)|].
      intros w Hw. by apply capitalize_clean.
    + intros c Hc. unfold isNameSeparator, is_char in Hc.
      apply orb_false_iff in Hc as [Hc H3].
      apply orb_false_iff in Hc as [H1 H2].
      apply Ascii.eqb_neq in H1, H2, H3. by repeat split.
  - intros Hn. unfold formatModelName.
    rewrite stripCloudSuffix_appended.
    unfold stripCloudSuffix. by rewrite Hn.
Qed.

Lemma formatModelName_hides_separators_witness :
  formatModelName "kimi-k2:cloud" = formatModelName "kimi-k2".
Proof.
  apply (formatModelName_hides_separators "kimi-k2"). reflexivity.
Defined.

End NamingProperties.

(* ===================================================================== *)
(** ** Further properties of the binding handlers and the settings *)
(* ===================================================================== *)

Section MoreBindingProperties.
Import JsString Catalog Workspace Routing.

Lemma settings_thread_set w T th newPath :
  given T = Some th ->
  settings (workspace_set w T newPath).2 = settings w.
Proof.
  intros HT. unfold workspace_set. rewrite HT.
  destruct (getThread w th); [|done].
  by destruct (given newPath).
Qed.

(** The default model: what [models:setDefault] stores is what
    [getDefaultModel] gives, for any string; with nothing stored the default
    is 'claude-sonnet-4-5-20250929', an id of the static table; and neither
    setting disturbs the other: [models:setDefault] changes no
    [workspace:get], and no [workspace:set] changes the default model. *)
Theorem default_model_roundtrip w modelId :
  getDefaultModel (models_setDefault w modelId) = modelId
  /\ (settings w !! "defaultModel" = None ->
      getDefaultModel w = "claude-sonnet-4-5-20250929")
  /\ "claude-sonnet-4-5-20250929" ∈ map id AVAILABLE_MODELS
  /\ (forall threadId,
        workspace_get (models_setDefault w modelId) threadId
        = workspace_get w threadId)
  /\ (forall threadId newPath,
        getDefaultModel (workspace_set w threadId newPath).2 = getDefaultModel w).
Proof.
  split; [|split; [|split; [|split]]].
  - unfold getDefaultModel, models_setDefault, storeSet. simpl.
    by rewrite lookup_insert_eq.
  - intros Hnone. unfold getDefaultModel. by rewrite Hnone.
  - vm_compute. apply list_elem_of_further, list_elem_of_here.
  - intros threadId. unfold workspace_get, models_setDefault, storeSet, getThread.
    simpl. destruct (given threadId); [done|].
    by rewrite lookup_insert_ne.
  - intros threadId newPath. unfold getDefaultModel.
    destruct (given threadId) as [t|] eqn:HT.
    + by rewrite (settings_thread_set w threadId t newPath HT).
    + unfold workspace_set. rewrite HT.
      destruct (given newPath); simpl;
        [by rewrite lookup_insert_ne|by rewrite lookup_delete_ne].
Qed.

(** The global fallback (no thread id, or an empty one): a non-empty path
    set is the path read back, a null or empty path removes the setting, and
    in this mode no thread is written and no watcher is started or stopped;
    per-thread readings are unaffected. *)
Theorem global_fallback_binding w threadId p :
  given threadId = None ->
  (truthy p = true ->
   workspace_get (workspace_set w threadId (Some p)).2 threadId = Some p)
  /\ workspace_get (workspace_set w threadId None).2 threadId = None
  /\ workspace_get (workspace_set w threadId (Some "")).2 threadId = None
  /\ (forall newPath,
        threads (workspace_set w threadId newPath).2 = threads w
        /\ watchers (workspace_set w threadId newPath).2 = watchers w
        /\ forall T, given T <> None ->
             workspace_get (workspace_set w threadId newPath).2 T
             = workspace_get w T).
Proof.
  intros HT. unfold workspace_set, workspace_get. rewrite !HT.
  split; [|split; [|split]].
  - intros Hp. simpl. rewrite Hp. simpl. apply lookup_insert_eq.
  - simpl. apply lookup_delete_eq.
  - simpl. apply lookup_delete_eq.
  - intros newPath.
    destruct (given newPath); simpl; (split; [done|]); (split; [done|]);
      intros T HT'; by destruct (given T).
Qed.

Lemma global_fallback_binding_witness :
  workspace_get (workspace_set Scenario.world None (Some "/global")).2 None
  = Some "/global".
Proof.
  destruct (global_fallback_binding Scenario.world None "/global" eq_refl)
    as [Hset _].
  exact (Hset eq_refl).
Defined.




(** [workspace:select]: a cancelled or empty selection returns null and
    changes nothing; a selected non-empty folder is handled exactly as
    [workspace:set] with that folder, both for an existing thread and for the
    global fallback; for a thread id unknown to the thread store nothing is
    stored either, but the folder is returned all the same (where
    [workspace:set] returns null). *)
Theorem workspace_select_behaviour w dialog threadId :
  (canceled dialog = true \/ filePaths dialog = [] ->
   workspace_select w dialog threadId = (None, w))
  /\ (forall selectedPath rest t,
        canceled dialog = false ->
        filePaths dialog = selectedPath :: rest ->
        truthy selectedPath = true ->
        (given threadId = None ->
         workspace_select w dialog threadId
         = workspace_set w threadId (Some selectedPath))
        /\ (given threadId = Some t -> getThread w t <> None ->
            workspace_select w dialog threadId
            = workspace_set w threadId (Some selectedPath))
        /\ (given threadId = Some t -> getThread w t = None ->
            workspace_select w dialog threadId = (Some selectedPath, w)
            /\ workspace_set w threadId (Some selectedPath) = (None, w))).
Proof.
  split.
  - intros [Hc|Hf]; unfold workspace_select.
    + rewrite Hc. by destruct (filePaths dialog).
    + by rewrite Hf.
  - intros selectedPath rest t Hc Hf Hp.
    unfold workspace_select, workspace_set. rewrite Hc, Hf. simpl. rewrite Hp.
    split; [|split].
    + by intros ->.
    + intros -> Hth. by destruct (getThread w t).
    + intros -> ->. done.
Qed.

Lemma workspace_select_behaviour_witness :
  workspace_select Scenario.world MoreScenarios.picked (Some "t1")
  = workspace_set Scenario.world (Some "t1") (Some "/picked")
  /\ workspace_select Scenario.world MoreScenarios.cancelled (Some "t1")
     = (None, Scenario.world).
Proof.
  destruct (workspace_select_behaviour Scenario.world MoreScenarios.picked (Some "t1"))
    as [_ Hpick].
  destruct (workspace_select_behaviour Scenario.world MoreScenarios.cancelled (Some "t1"))
    as [Hcancel _].
  split.
  - destruct (Hpick "/picked" [] "t1" eq_refl eq_refl eq_refl) as (_ & Hex & _).
    apply Hex; [reflexivity|discriminate].
  - apply Hcancel. by left.
Defined.




End MoreBindingProperties.

(* ===================================================================== *)
(** ** Further properties of the file reads *)
(* ===================================================================== *)

Section MoreReadProperties.
Import JsString Workspace Routing.

Lemma startsWith_refl s : startsWith s s = true.
Proof. induction s as [|c s IH]; simpl; [done|]. by rewrite Ascii.eqb_refl. Qed.

Lemma startsWith_prefix s a b :
  startsWith s (a +:+ b) = true -> startsWith s a = true.
Proof.
  revert s. induction a as [|c a IH]; intros s H; [by destruct s|].
  destruct s as [|d s]; simpl in *; [done|].
  destruct (Ascii.eqb c d); [by apply IH|done].
Qed.

Lemma descendantOrEqual_startsWith root candidate :
  descendantOrEqual root candidate = true -> startsWith candidate root = true.
Proof.
  unfold descendantOrEqual. intros H.
  apply orb_true_iff in H as [H|H].
  - apply String.eqb_eq in H as ->. apply startsWith_refl.
  - destruct (endsWith root "/"); [done|]. by apply startsWith_prefix in H.
Qed.

(** The security check never refuses a path inside the workspace: when
    the resolved path is the resolved root or lies below it, the check
    passes and the outcome of the read is what the disk gives. *)
Theorem contained_paths_pass_check w fs threadId filePath workspacePath :
  boundPath w threadId = Some workspacePath ->
  descendantOrEqual (Path.resolve (cwd fs) [workspacePath])
    (Path.resolve (cwd fs) [fullPathOf workspacePath filePath]) = true ->
  withinWorkspace fs workspacePath (fullPathOf workspacePath filePath) = true
  /\ (forall st c,
        stat fs (fullPathOf workspacePath filePath) = Returns st ->
        isDirectory st = false ->
        readFile fs (fullPathOf workspacePath filePath) = Returns c ->
        workspace_readFile w fs threadId filePath
        = Returns (mkReadResult true None (Some (content_text c))
                     (Some (size st)) (Some (mtime st)))).
Proof.
  intros Hb Hin.
  assert (Hw : withinWorkspace fs workspacePath
                 (fullPathOf workspacePath filePath) = true).
  { unfold withinWorkspace. by apply descendantOrEqual_startsWith. }
  split; [done|].
  intros st c Hs Hd Hr.
  unfold workspace_readFile.
  rewrite (readHandler_within Utf8 w fs threadId filePath workspacePath Hb Hw).
  rewrite Hs. simpl. by rewrite Hd, Hr.
Qed.

Lemma contained_paths_pass_check_witness :
  withinWorkspace Scenario.disk "/ws" (fullPathOf "/ws" "/src/../file.txt") = true.
Proof.
  apply (contained_paths_pass_check Scenario.world Scenario.disk "t1"
           "/src/../file.txt" "/ws"); reflexivity.
Defined.


End MoreReadProperties.

(* ===================================================================== *)
(** ** Further properties of the snapshot *)
(* ===================================================================== *)

Section MoreSnapshotProperties.
Import JsString Workspace Walk.

Lemma visitAll_succeeded_with relativePath entries :
  Forall (fun e => forall rel acc,
            succeeded (visit rel e acc) = negb (failing e)) entries ->
  forall acc,
    succeeded (visitAll relativePath entries acc)
    = negb (existsb failing entries).
Proof.
  induction 1 as [|e es He _ IH]; intros acc; simpl; [reflexivity|].
  specialize (He relativePath acc).
  destruct (visit relativePath e acc) as [acc'|err]; simpl in He.
  - rewrite IH. symmetry in He. apply negb_true_iff in He. by rewrite He.
  - symmetry in He. apply negb_false_iff in He. by rewrite He.
Qed.

Lemma visit_succeeded e :
  forall relativePath acc,
    succeeded (visit relativePath e acc) = negb (failing e).
Proof.
  induction e as [name st|name err|name entries IH] using DirEntry_tree_ind;
    intros relativePath acc.
  - simpl. destruct (skipped name); [reflexivity|]. by destruct st.
  - simpl. by destruct (skipped name).
  - rewrite visit_dir. simpl. destruct (skipped name); [reflexivity|].
    simpl. by apply visitAll_succeeded_with.
Qed.

Lemma visitAll_succeeded relativePath entries acc :
  succeeded (visitAll relativePath entries acc) = negb (existsb failing entries).
Proof.
  apply visitAll_succeeded_with, Forall_forall. intros e _. apply visit_succeeded.
Qed.

Lemma visitAll_length_with relativePath entries :
  Forall (fun e => forall rel acc acc',
            visit rel e acc = Returns acc' ->
            length acc' = (length acc + emitted e)%nat) entries ->
  forall acc acc',
    visitAll relativePath entries acc = Returns acc' ->
    length acc' = (length acc + list_sum (map emitted entries))%nat.
Proof.
  induction 1 as [|e es He _ IH]; intros acc acc' Hv; simpl in *.
  - injection Hv as <-. lia.
  - destruct (visit relativePath e acc) as [acc1|err] eqn:Hv1; [|done].
    rewrite (IH acc1 acc' Hv), (He relativePath acc acc1 Hv1). lia.
Qed.

Lemma visit_length e :
  forall relativePath acc acc',
    visit relativePath e acc = Returns acc' ->
    length acc' = (length acc + emitted e)%nat.
Proof.
  induction e as [name st|name err|name entries IH] using DirEntry_tree_ind;
    intros relativePath acc acc' Hv.
  - simpl in *. destruct (skipped name); [injection Hv as <-; lia|].
    destruct st; [|done]. injection Hv as <-. rewrite length_app. simpl. lia.
  - simpl in *. destruct (skipped name); [injection Hv as <-; lia|done].
  - rewrite visit_dir in Hv. simpl. destruct (skipped name);
      [injection Hv as <-; lia|].
    rewrite (visitAll_length_with _ entries IH _ _ Hv), length_app. simpl. lia.
Qed.

(** The snapshot is all or nothing. For a bound workspace whose root can
    be listed, it succeeds exactly when no entry the walk looks at (at any
    depth, skipped entries and what they hold apart) fails its [stat] or
    [readdir]; on success it lists one entry per such entry and returns the
    workspace path; on failure it returns no entry at all, with an error
    text. An unreadable root gives the failure carrying the message of the
    error. *)
Theorem snapshot_all_or_nothing w fs threadId workspacePath :
  boundPath w threadId = Some workspacePath ->
  (forall entries,
     readdir fs workspacePath = Returns entries ->
     exists result,
       workspace_loadFromDisk w fs threadId = Returns result
       /\ load_success result = negb (existsb failing entries)
       /\ (load_success result = true ->
           length (files result) = list_sum (map emitted entries)
           /\ load_workspacePath result = Some workspacePath
           /\ load_error result = None)
       /\ (load_success result = false ->
           files result = [] /\ is_Some (load_error result)))
  /\ (forall e,
     readdir fs workspacePath = Throws e ->
     workspace_loadFromDisk w fs threadId
     = Returns (mkLoadResult false (Some (errorMessage e)) [] None)).
Proof.
  intros Hb. unfold workspace_loadFromDisk, readDir. rewrite Hb. split.
  - intros entries ->. simpl.
    pose proof (visitAll_succeeded "" entries []) as Hs.
    destruct (visitAll "" entries []) as [acc|err] eqn:Hv; simpl in Hs;
      eexists; (split; [reflexivity|]); simpl; (split; [done|]).
    + split; [|done]. intros _.
      rewrite (visitAll_length_with "" entries
                 (proj2 (Forall_forall _ _) (fun e _ => visit_length e)) [] acc Hv).
      done.
    + split; [done|]. intros _. split; [done|]. by eexists.
  - by intros e ->.
Qed.

Lemma snapshot_all_or_nothing_witness :
  (files <$> workspace_loadFromDisk Scenario.world MoreScenarios.brokenDisk "t1")
  = Returns [].
Proof.
  destruct (snapshot_all_or_nothing Scenario.world MoreScenarios.brokenDisk
              "t1" "/ws" eq_refl) as [Hlist _].
  destruct (Hlist MoreScenarios.brokenTree eq_refl)
    as (result & -> & Hsucc & _ & Hfail).
  destruct (Hfail Hsucc) as [Hfiles _]. simpl. by rewrite Hfiles.
Defined.

(** A property of every entry the walk can build holds of everything it
    emits. *)
Lemma visit_emits_with (P : FileInfo -> Prop) :
  (forall p, P (mkFileInfo ("/" +:+ p) true None None)) ->
  (forall p s, P (mkFileInfo ("/" +:+ p) false (Some (size s)) (Some (mtime s)))) ->
  forall e relativePath acc acc',
    Forall P acc -> visit relativePath e acc = Returns acc' -> Forall P acc'.
Proof.
  intros Hdir Hfile.
  induction e as [name st|name err|name entries IH] using DirEntry_tree_ind;
    intros relativePath acc acc' Hacc Hv.
  - simpl in Hv. destruct (skipped name); [by injection Hv as <-|].
    destruct st as [s|]; [|done]. injection Hv as <-.
    apply Forall_app. split; [done|]. by apply Forall_singleton.
  - simpl in Hv. destruct (skipped name); [by injection Hv as <-|done].
  - rewrite visit_dir in Hv. destruct (skipped name); [by injection Hv as <-|].
    assert (Hacc0 : Forall P (acc ++ [mkFileInfo ("/" +:+ relPathOf relativePath name)
                                        true None None])).
    { apply Forall_app. split; [done|]. by apply Forall_singleton. }
    revert Hacc0 Hv.
    generalize (acc ++ [mkFileInfo ("/" +:+ relPathOf relativePath name)
                          true None None]).
    clear Hacc acc.
    induction IH as [|e es He _ IHes]; intros acc Hacc Hv; simpl in *.
    + by injection Hv as <-.
    + destruct (visit (relPathOf relativePath name) e acc) as [acc1|] eqn:Hv1;
        [|done].
      apply (IHes acc1); [|done].
      by apply (He (relPathOf relativePath name) acc acc1).
Qed.

Lemma visitAll_emits_with (P : FileInfo -> Prop) :
  (forall p, P (mkFileInfo ("/" +:+ p) true None None)) ->
  (forall p s, P (mkFileInfo ("/" +:+ p) false (Some (size s)) (Some (mtime s)))) ->
  forall entries relativePath acc acc',
    Forall P acc -> visitAll relativePath entries acc = Returns acc' ->
    Forall P acc'.
Proof.
  intros Hdir Hfile.
  induction entries as [|e es IH]; intros relativePath acc acc' Hacc Hv;
    simpl in Hv.
  - by injection Hv as <-.
  - destruct (visit relativePath e acc) as [acc1|] eqn:Hv1; [|done].
    apply (IH relativePath acc1); [|done].
    by apply (visit_emits_with P Hdir Hfile e relativePath acc).
Qed.

(** Every entry of a snapshot has a path rooted at '/', and carries a
    size and a modification time exactly when it is not a directory. *)
Theorem snapshot_entries_shaped w fs threadId result :
  workspace_loadFromDisk w fs threadId = Returns result ->
  Forall entryShaped (files result).
Proof.
  unfold workspace_loadFromDisk, readDir.
  destruct (boundPath w threadId) as [workspacePath|];
    [|intros [= <-]; simpl; by apply Forall_nil].
  destruct (readdir fs workspacePath) as [entries|err]; simpl;
    [|intros [= <-]; simpl; by apply Forall_nil].
  destruct (visitAll "" entries []) as [acc|err] eqn:Hv;
    intros [= <-]; simpl; [|by apply Forall_nil].
  apply (visitAll_emits_with entryShaped) with (entries := entries)
    (relativePath := "") (acc := []); [| |by apply Forall_nil|done].
  - intros p. unfold entryShaped. simpl.
    split; [by destruct p|]. split; [done|]. intros H. discriminate H.
  - intros p s. unfold entryShaped. simpl.
    split; [by destruct p|]. split; [intros H; discriminate H|].
    intros _. split; by eexists.
Qed.

Lemma snapshot_entries_shaped_witness :
  Forall entryShaped
    [ mkFileInfo "/file.txt" false (Some 2%N) (Some "2026-01-02T00:00:00.000Z");
      mkFileInfo "/src" true None None;
      mkFileInfo "/src/a.ts" false (Some 2%N) (Some "2026-01-02T00:00:00.000Z") ].
Proof.
  apply (snapshot_entries_shaped Scenario.world Scenario.disk "t1"
           (mkLoadResult true None _ (Some "/ws"))).
  reflexivity.
Defined.

(** *** A directory comes before what it holds *)

Lemma truthy_app a b : truthy a = true -> truthy (a +:+ b) = true.
Proof. by destruct a. Qed.

Lemma truthy_relPathOf relativePath name :
  truthy name = true -> truthy (relPathOf relativePath name) = true.
Proof.
  intros Hn. unfold relPathOf.
  destruct (truthy relativePath) eqn:Hr; [by apply truthy_app|done].
Qed.

Lemma startsWith_under rel x :
  startsWith ("/" +:+ rel +:+ "/" +:+ x) ("/" +:+ rel +:+ "/") = true.
Proof.
  simpl. induction rel as [|c rel IH]; simpl; [by destruct x|].
  by rewrite Ascii.eqb_refl.
Qed.

Lemma str_app_assoc a b c : (a +:+ b) +:+ c = a +:+ (b +:+ c).
Proof.
  induction a as [|x a IH]; [reflexivity|].
  change (String x ((a +:+ b) +:+ c) = String x (a +:+ (b +:+ c))).
  by rewrite IH.
Qed.

Lemma under_nested_inner rel name :
  (rel +:+ "/" +:+ name) +:+ "/" = (rel +:+ "/") +:+ (name +:+ "/").
Proof. by rewrite !str_app_assoc. Qed.

Lemma under_nested rel name :
  "/" +:+ (rel +:+ "/" +:+ name) +:+ "/"
  = ("/" +:+ rel +:+ "/") +:+ (name +:+ "/").
Proof.
  change ("/" +:+ (rel +:+ "/" +:+ name) +:+ "/")
    with (String "/"%char ((rel +:+ "/" +:+ name) +:+ "/")).
  change (("/" +:+ rel +:+ "/") +:+ (name +:+ "/"))
    with (String "/"%char ((rel +:+ "/") +:+ (name +:+ "/"))).
  by rewrite under_nested_inner.
Qed.

Lemma visitAll_under_with relativePath entries :
  truthy relativePath = true ->
  Forall (fun e => named e = true ->
            forall rel acc acc',
              truthy rel = true -> visit rel e acc = Returns acc' ->
              exists new, acc' = acc ++ new /\ Forall (under rel) new) entries ->
  forallb named entries = true ->
  forall acc acc',
    visitAll relativePath entries acc = Returns acc' ->
    exists new, acc' = acc ++ new /\ Forall (under relativePath) new.
Proof.
  intros Hrel. induction 1 as [|e es He _ IH]; intros Hnamed acc acc' Hv;
    simpl in *.
  - injection Hv as <-. exists []. split; [by rewrite app_nil_r|by apply Forall_nil].
  - apply andb_true_iff in Hnamed as [Hne Hnes].
    destruct (visit relativePath e acc) as [acc1|] eqn:Hv1; [|done].
    destruct (He Hne relativePath acc acc1 Hrel Hv1) as (new1 & -> & Hnew1).
    destruct (IH Hnes _ _ Hv) as (new2 & -> & Hnew2).
    exists (new1 ++ new2). split; [by rewrite app_assoc|].
    apply Forall_app. by split.
Qed.

Lemma visit_under e :
  named e = true ->
  forall rel acc acc',
    truthy rel = true -> visit rel e acc = Returns acc' ->
    exists new, acc' = acc ++ new /\ Forall (under rel) new.
Proof.
  induction e as [name st|name err|name entries IH] using DirEntry_tree_ind;
    intros Hnamed rel acc acc' Hrel Hv.
  - simpl in Hv. destruct (skipped name).
    + injection Hv as <-. exists []. split; [by rewrite app_nil_r|by apply Forall_nil].
    + destruct st as [s|]; [|done]. injection Hv as <-.
      eexists. split; [reflexivity|]. apply Forall_singleton.
      unfold under, relPathOf. simpl path. rewrite Hrel. apply startsWith_under.
  - simpl in Hv. destruct (skipped name); [|done].
    injection Hv as <-. exists []. split; [by rewrite app_nil_r|by apply Forall_nil].
  - rewrite visit_dir in Hv. simpl in Hnamed.
    apply andb_true_iff in Hnamed as [Hname Hnamed].
    destruct (skipped name).
    + injection Hv as <-. exists []. split; [by rewrite app_nil_r|by apply Forall_nil].
    + destruct (visitAll_under_with (relPathOf rel name) entries
                  (truthy_relPathOf rel name Hname) IH Hnamed _ _ Hv)
        as (new & -> & Hnew).
      eexists. split; [by rewrite <- app_assoc|].
      apply Forall_cons. split.
      * unfold under, relPathOf. simpl path. rewrite Hrel. apply startsWith_under.
      * eapply Forall_impl; [exact Hnew|].
        intros f Hf. unfold under, relPathOf in *. rewrite Hrel in Hf.
        rewrite under_nested in Hf. by apply startsWith_prefix in Hf.
Qed.

(** [readDir] emits a directory before everything it emits for what the
    directory holds: the walk of a listed directory keeps the entries
    gathered so far in place, appends the directory's own entry, and after it
    only entries whose path lies below the directory's path. (Names are taken
    non-empty, as a file system gives them.) *)
Theorem readDir_directory_first relativePath name entries acc acc' :
  skipped name = false -> truthy name = true ->
  forallb named entries = true ->
  visit relativePath (EDir name (Returns entries)) acc = Returns acc' ->
  exists below,
    acc' = acc ++ mkFileInfo ("/" +:+ relPathOf relativePath name) true None None
                  :: below
    /\ Forall
         (fun f =>
            startsWith (path f) ("/" +:+ relPathOf relativePath name +:+ "/") = true)
         below.
Proof.
  intros Hs Hname Hnamed Hv. rewrite visit_dir, Hs in Hv.
  assert (Hchildren :
            Forall (fun e => named e = true ->
                      forall rel acc acc',
                        truthy rel = true -> visit rel e acc = Returns acc' ->
                        exists new, acc' = acc ++ new /\ Forall (under rel) new)
              entries).
  { apply Forall_forall. intros e _. apply visit_under. }
  destruct (visitAll_under_with (relPathOf relativePath name) entries
              (truthy_relPathOf relativePath name Hname) Hchildren Hnamed _ _ Hv)
    as (below & -> & Hbelow).
  exists below. split; [by rewrite <- app_assoc|done].
Qed.

Lemma readDir_directory_first_witness :
  exists below,
    visit "" (EDir "src"
                (Returns [EFile "a.ts" (Returns Scenario.fileStats);
                          EDir "lib" (Returns [EFile "b.ts" (Returns Scenario.fileStats)])]))
      []
    = Returns ([] ++ mkFileInfo "/src" true None None :: below)
    /\ Forall (fun f => startsWith (path f) "/src/" = true) below.
Proof.
  destruct (readDir_directory_first "" "src"
              [EFile "a.ts" (Returns Scenario.fileStats);
               EDir "lib" (Returns [EFile "b.ts" (Returns Scenario.fileStats)])]
              [] _ eq_refl eq_refl eq_refl eq_refl) as (below & Heq & Hbelow).
  exists below. split; [exact (f_equal Returns Heq)|exact Hbelow].
Defined.

End MoreSnapshotProperties.
